(** * react-spring-coverflow: windowing, transforms and navigation

    A shallow embedding of the [Coverflow] component of [coverflow.tsx]
    (the variant with drag support) and the properties of its position
    model, its visible window, its transform function, its drag handler
    and its click handler.

    Numbers: positions, keys and relative offsets are integers ([Z]);
    pointer displacements and the numeric configuration are rationals
    ([Q]), so that values such as [dragSpeed = 0.5] are represented
    exactly; arithmetic is exact (no rounding, no [NaN], no infinity).
    [Math.max], [Math.min], [Math.abs] and [Math.sign] are
    [Z.max], [Z.min], [Z.abs]/[Qabs] and [Z.sgn]/[Qsign]. *)

From Stdlib Require Import ZArith QArith Qabs Qround List Bool Lia Lqa.
Import ListNotations.

Set Implicit Arguments.

Local Open Scope Z_scope.

(** ** JavaScript array helpers *)

Module JS.

(** [Array.prototype.slice(start, end)]: negative arguments count from
    the end of the array, both are clipped to the array, and an empty
    range yields the empty array. *)
Definition slice {A : Type} (start finish : Z) (l : list A) : list A :=
  let len := Z.of_nat (length l) in
  let k := if start <? 0 then Z.max (len + start) 0 else Z.min start len in
  let final := if finish <? 0 then Z.max (len + finish) 0 else Z.min finish len in
  firstn (Z.to_nat (final - k)) (skipn (Z.to_nat k) l).

(** [Array.prototype.map((element, index) => ...)], indices counted
    from [i]. *)
Fixpoint mapiFrom {A B : Type} (i : Z) (f : A -> Z -> B) (l : list A) : list B :=
  match l with
  | [] => []
  | x :: xs => f x i :: mapiFrom (i + 1) f xs
  end.

Definition mapi {A B : Type} (f : A -> Z -> B) (l : list A) : list B :=
  mapiFrom 0 f l.

(** [Math.sign] and the comparison [>] on rationals. *)
Definition Qsign (x : Q) : Z := Z.sgn (Qnum x).

Definition Qgtb (x y : Q) : bool :=
  match (x ?= y)%Q with Gt => true | _ => false end.

End JS.

(** ** Data model *)

Section Items.

Variable T : Type.

(** [type ItemWithKey<T> = { item: T; key: number }] *)
Record ItemWithKey : Type := { item : T; key : Z }.

(** [type ItemWithIndex<T>]: the keyed item spread into a new object
    together with [index], its offset from the centre. *)
Record ItemWithIndex : Type := { keyed :> ItemWithKey; index : Z }.

(** Add a key to an item, which is its original position in the list. *)
Definition withKeys (items : list T) : list ItemWithKey :=
  JS.mapi (fun item key => {| item := item; key := key |}) items.

(** Add an index to an item with a key. *)
Definition withIndex (offset : Z) (items : list ItemWithKey) : list ItemWithIndex :=
  map (fun item => {| keyed := item; index := key item - offset |}) items.

(** [CoverflowProps<T>].  The two optional callbacks are the caller's
    code: the props only record whether each one is supplied, and a
    call of a supplied callback is recorded as an [Effect] below. *)
Record CoverflowProps : Type := {
  items : list T;
  sideItems : Z;
  startPosition : Z;
  scale : Q;
  scaleRatio : Q;
  angle : Q;
  gap : Q;
  centreGap : Q;
  perspective : Q;
  depth : Q;
  itemClicked : bool;
  sideItemClicked : bool;
  showReflections : bool;
  dragThreshold : Q;
  dragSpeed : Q;
  clickableSide : bool
}.

(** The defaults of the destructured parameter list of [Coverflow];
    the callbacks have none and are absent unless supplied. *)
Definition defaultProps (items : list T) : CoverflowProps := {|
  items := items;
  startPosition := 0;
  sideItems := 3;
  scale := 1;
  scaleRatio := 1;
  angle := 60;
  gap := 20;
  centreGap := 40;
  perspective := 1000;
  depth := 200;
  itemClicked := false;
  sideItemClicked := false;
  showReflections := true;
  dragThreshold := 100;
  clickableSide := true;
  dragSpeed := 1 # 2
|}.

Definition withDragSpeed (v : Q) (p : CoverflowProps) : CoverflowProps := {|
  items := items p;
  startPosition := startPosition p;
  sideItems := sideItems p;
  scale := scale p;
  scaleRatio := scaleRatio p;
  angle := angle p;
  gap := gap p;
  centreGap := centreGap p;
  perspective := perspective p;
  depth := depth p;
  itemClicked := itemClicked p;
  sideItemClicked := sideItemClicked p;
  showReflections := showReflections p;
  dragThreshold := dragThreshold p;
  clickableSide := clickableSide p;
  dragSpeed := v
|}.

(** ** Position model, window and transforms *)

(** The holes of the template string returned by [getTransform]:
    [perspective(${perspective}px) translate3d(${transX}%,0px, ${transZ}px)
     rotateY(${rotation}deg) scale(${scaleXY}, ${scaleXY})]. *)
Record Transform : Type := {
  t_perspective : Q;
  transX : Q;
  transZ : Q;
  rotation : Q;
  scaleXY : Q
}.

Section Component.

Variable props : CoverflowProps.

Definition clampPosition (n : Z) : Z :=
  Z.max 0 (Z.min n (Z.of_nat (length (items props)) - 1)).

Definition start (position : Z) : Z := Z.max (position - sideItems props) 0.

Definition finish (position : Z) : Z :=
  Z.min (position + sideItems props + 1) (Z.of_nat (length (items props))).

Definition visibleItems (position : Z) : list ItemWithIndex :=
  withIndex position (JS.slice (start position) (finish position) (withKeys (items props))).

Definition getTransform (index : Z) : Transform :=
  let transX := if index =? 0 then 0%Q
                else (centreGap props * inject_Z (Z.sgn index) + gap props * inject_Z index)%Q in
  let rotation := if index =? 0 then 0%Q
                  else (inject_Z (- Z.sgn index) * angle props)%Q in
  let scaleXY := (scale props * (if index =? 0 then 1 else scaleRatio props))%Q in
  let transZ := if index =? 0 then 0%Q else (- depth props)%Q in
  {| t_perspective := perspective props;
     transX := transX;
     transZ := transZ;
     rotation := rotation;
     scaleXY := scaleXY |}.

Definition getZIndex (index : Z) : Z := 100 - Z.abs index.

(** ** Hooks, effects and the handlers

    The component keeps [position] in a [useState] cell and
    [preventClick] and [lastX] in [useRef] cells.  A handler runs to
    completion on one event; it reads and writes the cells and calls its
    collaborators.  Those calls are recorded, in order, as effects:
    [dragSpringsApi.start], [setPosition] (with the value the updater
    function is applied to and the value it returns) and the two
    callbacks. *)

Record Hooks : Type := {
  position : Z;
  preventClick : bool;
  lastX : Q
}.

Inductive Effect : Type :=
| SpringsStart (x rotateY : Q)
| SetPosition (before after : Z)
| ItemClicked (v : T)
| SideItemClicked (v : T).

Definition M (A : Type) : Type := Hooks -> A * Hooks * list Effect.

Definition ret {A : Type} (a : A) : M A := fun h => (a, h, []).

Definition bind {A B : Type} (m : M A) (k : A -> M B) : M B :=
  fun h =>
    let '(a, h1, e1) := m h in
    let '(b, h2, e2) := k a h1 in
    (b, h2, e1 ++ e2).

Notation "x <- m ;; k" := (bind m (fun x => k))
  (at level 61, m at next level, right associativity).
Notation "m ;; k" := (bind m (fun _ => k))
  (at level 61, right associativity).

Definition emit (e : Effect) : M unit := fun h => (tt, h, [e]).

Definition when (b : bool) (m : M unit) : M unit := if b then m else ret tt.

Definition getPreventClick : M bool := fun h => (preventClick h, h, []).

Definition setPreventClick (b : bool) : M unit :=
  fun h => (tt, {| position := position h; preventClick := b; lastX := lastX h |}, []).

Definition getLastX : M Q := fun h => (lastX h, h, []).

Definition setLastX (x : Q) : M unit :=
  fun h => (tt, {| position := position h; preventClick := preventClick h; lastX := x |}, []).

(** [setPosition(updater)]: the updater is applied to the current value
    of the cell. *)
Definition setPosition (updater : Z -> Z) : M unit :=
  fun h =>
    let p := updater (position h) in
    (tt, {| position := p; preventClick := preventClick h; lastX := lastX h |},
     [SetPosition (position h) p]).

(** [cb?.(v)]: nothing happens when the callback is absent. *)
Definition optCall (supplied : bool) (call : T -> Effect) (v : T) : M unit :=
  when supplied (emit (call v)).

(** [useState(clampPosition(startPosition))], [useRef(false)], [useRef(0)]. *)
Definition initialHooks : Hooks := {|
  position := clampPosition (startPosition props);
  preventClick := false;
  lastX := 0
|}.

Definition handleClick (clicked : ItemWithIndex) : M unit :=
  prevent <- getPreventClick ;;
  if prevent then
    setPreventClick false
  else if index clicked =? 0 then
    optCall (itemClicked props) ItemClicked (item clicked)
  else
    optCall (sideItemClicked props) SideItemClicked (item clicked) ;;
    when (clickableSide props)
      (setPosition (fun position => position + Z.sgn (index clicked))).

(** The click handler of the earlier variant of the component kept in
    the repository, which has neither drag support nor [clickableSide]:
    [item.index == 0 ? itemClicked?.(item.item) : sideItemClicked?.(item.item)]
    followed by [setPosition((p) => p + item.index)]. *)
Definition legacyHandleClick (clicked : ItemWithIndex) : M unit :=
  (if index clicked =? 0
   then optCall (itemClicked props) ItemClicked (item clicked)
   else optCall (sideItemClicked props) SideItemClicked (item clicked)) ;;
  setPosition (fun p => p + index clicked).

(** The handler given to [useDrag], on the sample
    [{ first, active, movement: [mx] }]. *)
Definition onDrag (first active : bool) (mx : Q) : M unit :=
  when first (setLastX 0) ;;
  last <- getLastX ;;
  let newX := (mx - last)%Q in
  emit (SpringsStart (if active then newX * dragSpeed props else 0)%Q 0) ;;
  if JS.Qgtb (Qabs newX) (dragThreshold props) then
    setPosition (fun position => clampPosition (position - JS.Qsign newX)) ;;
    setLastX mx ;;
    setPreventClick true
  else
    ret tt.

(** ** Events and runs *)

Inductive Event : Type :=
| Drag (first active : bool) (mx : Q)
| Click (item : ItemWithIndex).

Definition handle (e : Event) : M unit :=
  match e with
  | Drag first active mx => onDrag first active mx
  | Click item => handleClick item
  end.

Fixpoint run (es : list Event) : M unit :=
  match es with
  | [] => ret tt
  | e :: es' => handle e ;; run es'
  end.

Definition hooksAfter (es : list Event) (h : Hooks) : Hooks := snd (fst (run es h)).

Definition effectsOf (es : list Event) (h : Hooks) : list Effect := snd (run es h).

(** A click is delivered to an element rendered for the current
    position: every click of the run targets an item of the window
    visible when it happens. *)
Fixpoint clicksVisible (es : list Event) (h : Hooks) : Prop :=
  match es with
  | [] => True
  | e :: es' =>
      match e with
      | Click item => In item (visibleItems (position h))
      | Drag _ _ _ => True
      end /\ clicksVisible es' (hooksAfter [e] h)
  end.

(** One gesture: the samples of a drag in arrival order, each carrying
    [active] and the cumulative displacement [mx]; the first sample, and
    only it, is flagged [first]. *)
Definition continued (samples : list (bool * Q)) : list Event :=
  map (fun s => Drag false (fst s) (snd s)) samples.

Definition gesture (samples : list (bool * Q)) : list Event :=
  match samples with
  | [] => []
  | (a, mx) :: rest => Drag true a mx :: continued rest
  end.

(** The [setPosition] calls among the effects. *)
Definition isSetPosition (e : Effect) : bool :=
  match e with SetPosition _ _ => true | _ => false end.

Definition commits (es : list Effect) : list Effect := filter isSetPosition es.

Definition isSpringsStart (e : Effect) : bool :=
  match e with SpringsStart _ _ => true | _ => false end.

Definition isNotification (e : Effect) : bool :=
  match e with ItemClicked _ | SideItemClicked _ => true | _ => false end.

End Component.

End Items.

Arguments SpringsStart {T} x rotateY.
Arguments SetPosition {T} before after.
Arguments ItemClicked {T} v.
Arguments SideItemClicked {T} v.
Arguments Drag {T} first active mx.
Arguments Click {T} item.
Arguments gesture {T} samples.
Arguments continued {T} samples.
Arguments isSetPosition {T} e.
Arguments isSpringsStart {T} e.
Arguments isNotification {T} e.
Arguments commits {T} es.

(** ** The specification's vocabulary *)

(** The integers [lo, lo+1, ...], [n] of them, and the half-open range
    [[lo, hi)]. *)
Fixpoint zcount (lo : Z) (n : nat) : list Z :=
  match n with
  | O => []
  | S n' => lo :: zcount (lo + 1) n'
  end.

Definition zrange (lo hi : Z) : list Z := zcount lo (Z.to_nat (hi - lo)).

(** [sign = relativeOffset == 0 ? 0 : (relativeOffset > 0 ? 1 : -1)] *)
Definition signOf (relativeOffset : Z) : Z :=
  if relativeOffset =? 0 then 0 else if relativeOffset >? 0 then 1 else -1.

Definition inBounds {T : Type} (props : CoverflowProps T) (p : Z) : Prop :=
  0 <= p <= Z.of_nat (length (items props)) - 1.

(** The effects other than the follow offsets handed to the springs. *)
Definition withoutSprings {T : Type} (es : list (Effect T)) : list (Effect T) :=
  filter (fun e => negb (isSpringsStart e)) es.

(** The follow offsets handed to the springs. *)
Definition followOffsets {T : Type} (es : list (Effect T)) : list Q :=
  flat_map (fun e => match e with SpringsStart x _ => [x] | _ => [] end) es.

(** Every [setPosition] call of an effect leaves the position in bounds. *)
Definition setsInBounds {T : Type} (props : CoverflowProps T) (e : Effect T) : Prop :=
  match e with
  | SetPosition _ after => inBounds props after
  | _ => True
  end.

(** The event is a drag sample. *)
Definition isDrag {T : Type} (e : Event T) : Prop :=
  match e with Drag _ _ _ => True | Click _ => False end.

(** A monotonic drag: the cumulative displacements of its samples, which
    start from 0 at the gesture start, never move back, and the last one
    is the displacement [d] the drag reaches. *)
Fixpoint ascending (b : Q) (ms : list Q) : bool :=
  match ms with
  | [] => true
  | m :: rest => Qle_bool b m && ascending m rest
  end.

Fixpoint descending (b : Q) (ms : list Q) : bool :=
  match ms with
  | [] => true
  | m :: rest => Qle_bool m b && descending m rest
  end.

Definition monotoneTo (d : Q) (ms : list Q) : Prop :=
  (last ms 0 == d)%Q /\ (ascending 0 ms = true \/ descending 0 ms = true).

(** A drag sampled at every whole pixel on its way from 0 to [d] > 0,
    the pointer still down. *)
Definition pixelSteps (d : Z) : list (bool * Q) :=
  map (fun m => (true, inject_Z m)) (zrange 0 (d + 1)).

(** [n] successive commits in one direction, starting from position [p]:
    each is [setPosition] taking the position to
    [clampPosition (position - sign)]. *)
Fixpoint commitChain {T : Type} (props : CoverflowProps T) (sign : Z) (p : Z) (n : nat)
  : list (Effect T) :=
  match n with
  | O => []
  | S n' =>
      SetPosition p (clampPosition props (p - sign))
      :: commitChain props sign (clampPosition props (p - sign)) n'
  end.

(** The threshold comparison of the drag handler on its own: the samples
    are compared with the baseline, which moves to the sample at each
    commit; the result lists [Math.sign(newX)] of the commits. *)
Fixpoint commitSigns (threshold base : Q) (ms : list Q) : list Z :=
  match ms with
  | [] => []
  | mx :: rest =>
      let newX := (mx - base)%Q in
      if JS.Qgtb (Qabs newX) threshold
      then JS.Qsign newX :: commitSigns threshold mx rest
      else commitSigns threshold base rest
  end.

(** The [setPosition] calls and the final position that a list of commit
    signs stands for. *)
Fixpoint commitEffects {T : Type} (props : CoverflowProps T) (p : Z) (signs : list Z)
  : list (Effect T) :=
  match signs with
  | [] => []
  | s :: rest =>
      SetPosition p (clampPosition props (p - s))
      :: commitEffects props (clampPosition props (p - s)) rest
  end.

Definition commitPosition {T : Type} (props : CoverflowProps T) (p : Z) (signs : list Z) : Z :=
  fold_left (fun q s => clampPosition props (q - s)) signs p.

(** The baseline a drag sample is compared with. *)
Definition baseline (first : bool) (h : Hooks) : Q := if first then 0%Q else lastX h.

(** ** The earlier variant of the transform

    [getTransform] of the earlier variant of the component, which
    normalises the offset by dividing by its absolute value:
    [(centreGap * index) / Math.abs(index) + gap * index] and
    [-(index / Math.abs(index)) * angle]. *)
Definition legacyGetTransform {T : Type} (props : CoverflowProps T) (index : Z) : Transform :=
  let transX := if index =? 0 then 0%Q
                else ((centreGap props * inject_Z index) / inject_Z (Z.abs index)
                      + gap props * inject_Z index)%Q in
  let rotation := if index =? 0 then 0%Q
                  else (- (inject_Z index / inject_Z (Z.abs index)) * angle props)%Q in
  let scaleXY := (scale props * (if index =? 0 then 1 else scaleRatio props))%Q in
  let transZ := if index =? 0 then 0%Q else (- depth props)%Q in
  {| t_perspective := perspective props;
     transX := transX;
     transZ := transZ;
     rotation := rotation;
     scaleXY := scaleXY |}.

(** ** More vocabulary for runs *)

Definition isClick {T : Type} (e : Event T) : bool :=
  match e with Click _ => true | Drag _ _ _ => false end.

Definition isDragSample {T : Type} (e : Event T) : bool :=
  match e with Drag _ _ _ => true | Click _ => false end.

Definition notifications {T : Type} (es : list (Effect T)) : list (Effect T) :=
  filter isNotification es.

(** A [setPosition] call that moves the position by at most one place,
    from a position in bounds. *)
Definition stepsByOne {T : Type} (props : CoverflowProps T) (e : Effect T) : Prop :=
  match e with
  | SetPosition before after => inBounds props before /\ Z.abs (after - before) <= 1
  | _ => True
  end.

(** The element rendered for the list item [x] with key [k] when the
    position is [p]. *)
Definition rendered {T : Type} (x : T) (k p : Z) : ItemWithIndex T :=
  {| keyed := {| item := x; key := k |}; index := k - p |}.


(** The gesture with every displacement negated. *)
Definition mirrored (samples : list (bool * Q)) : list (bool * Q) :=
  map (fun s => (fst s, (- snd s)%Q)) samples.

(** * Properties *)

Unset Implicit Arguments.

Example scenario_A_window :
  map (fun it : ItemWithIndex unit => (key it, index it))
      (visibleItems (defaultProps (repeat tt 10)) 0) = [(0, 0); (1, 1); (2, 2); (3, 3)].
Proof. reflexivity. Qed.

Example scenario_B_window :
  map (fun it : ItemWithIndex unit => (key it, index it))
      (visibleItems (defaultProps (repeat tt 10)) 5)
  = [(2, -3); (3, -2); (4, -1); (5, 0); (6, 1); (7, 2); (8, 3)].
Proof. reflexivity. Qed.

(** ** Ranges and indexed maps *)

Lemma zcount_length lo n : length (zcount lo n) = n.
Proof. revert lo; induction n as [|n IH]; intros lo; simpl; [reflexivity|now rewrite IH]. Qed.

Lemma zcount_In lo n x : In x (zcount lo n) <-> lo <= x < lo + Z.of_nat n.
Proof.
  revert lo; induction n as [|n IH]; intros lo.
  - simpl. lia.
  - cbn [zcount In]. rewrite IH. lia.
Qed.

Lemma zrange_In lo hi x : In x (zrange lo hi) <-> lo <= x < hi.
Proof. unfold zrange. rewrite zcount_In. lia. Qed.

Lemma zcount_centre p lo n :
  length (filter (fun k => k - p =? 0) (zcount lo n))
  = if (lo <=? p) && (p <? lo + Z.of_nat n) then 1%nat else 0%nat.
Proof.
  revert lo; induction n as [|n IH]; intros lo.
  - simpl. destruct (Z.leb_spec lo p), (Z.ltb_spec p (lo + 0)); try reflexivity; lia.
  - cbn [zcount filter]. destruct (Z.eqb_spec (lo - p) 0).
    + cbn [length]. rewrite IH.
      destruct (Z.leb_spec (lo + 1) p); [lia|].
      destruct (Z.leb_spec lo p), (Z.ltb_spec p (lo + Z.of_nat (S n))); simpl; lia.
    + rewrite IH.
      destruct (Z.leb_spec (lo + 1) p), (Z.ltb_spec p (lo + 1 + Z.of_nat n)),
               (Z.leb_spec lo p), (Z.ltb_spec p (lo + Z.of_nat (S n))); simpl; lia.
Qed.

Section IndexedMap.

Variables (A B : Type) (f : A -> Z -> B).

Lemma mapiFrom_length i l : length (JS.mapiFrom i f l) = length l.
Proof. revert i; induction l as [|x l IH]; intros i; simpl; [reflexivity|now rewrite IH]. Qed.

Lemma mapiFrom_skipn n : forall i l,
  skipn n (JS.mapiFrom i f l) = JS.mapiFrom (i + Z.of_nat n) f (skipn n l).
Proof.
  induction n as [|n IH]; intros i l.
  - simpl. now rewrite Z.add_0_r.
  - destruct l as [|x l]; [reflexivity|].
    cbn [JS.mapiFrom skipn]. rewrite IH. f_equal. lia.
Qed.

Lemma mapiFrom_firstn n : forall i l,
  firstn n (JS.mapiFrom i f l) = JS.mapiFrom i f (firstn n l).
Proof.
  induction n as [|n IH]; intros i l; [reflexivity|].
  destruct l as [|x l]; [reflexivity|].
  cbn [JS.mapiFrom firstn]. now rewrite IH.
Qed.

Lemma mapiFrom_In i l y :
  In y (JS.mapiFrom i f l) ->
  exists j x, nth_error l j = Some x /\ y = f x (i + Z.of_nat j).
Proof.
  revert i; induction l as [|a l IH]; intros i; [intros []|].
  cbn [JS.mapiFrom In]. intros [<-|H].
  - exists 0%nat, a. split; [reflexivity|]. f_equal. lia.
  - destruct (IH _ H) as (j & x & Hj & ->).
    exists (S j), x. split; [exact Hj|]. f_equal. lia.
Qed.

End IndexedMap.

Lemma firstn_incl (A : Type) n : forall (l : list A) x, In x (firstn n l) -> In x l.
Proof.
  induction n as [|n IH]; intros [|a l] x; simpl; try tauto.
  intros [->|H]; [now left|right; now apply IH].
Qed.

Lemma skipn_incl (A : Type) n : forall (l : list A) x, In x (skipn n l) -> In x l.
Proof.
  induction n as [|n IH]; intros [|a l] x; simpl; try tauto.
  intros H; right; now apply IH.
Qed.

Lemma slice_incl (A : Type) (a b : Z) (l : list A) x : In x (JS.slice a b l) -> In x l.
Proof.
  unfold JS.slice. intros H.
  apply firstn_incl in H. now apply skipn_incl in H.
Qed.

Lemma slice_empty (A : Type) (a b : Z) : JS.slice a b (@nil A) = [].
Proof. unfold JS.slice. now rewrite skipn_nil, firstn_nil. Qed.

(** ** The position model *)

Section PositionModel.

Variable T : Type.
Variable props : CoverflowProps T.

Lemma clampPosition_bounds n :
  1 <= Z.of_nat (length (items props)) -> inBounds props (clampPosition props n).
Proof. unfold inBounds, clampPosition. lia. Qed.

Lemma clampPosition_fixed p : inBounds props p -> clampPosition props p = p.
Proof. unfold inBounds, clampPosition. lia. Qed.

Lemma clampPosition_empty n : items props = [] -> clampPosition props n = 0.
Proof. unfold clampPosition. intros ->. simpl. lia. Qed.

(** ** The window *)

Lemma withKeys_slice a b :
  JS.slice a b (withKeys (items props))
  = let len := Z.of_nat (length (items props)) in
    let k := if a <? 0 then Z.max (len + a) 0 else Z.min a len in
    let final := if b <? 0 then Z.max (len + b) 0 else Z.min b len in
    JS.mapiFrom (Z.of_nat (Z.to_nat k)) (fun item key => {| item := item; key := key |})
      (firstn (Z.to_nat (final - k)) (skipn (Z.to_nat k) (items props))).
Proof.
  unfold JS.slice, withKeys, JS.mapi. rewrite mapiFrom_length. cbv zeta.
  now rewrite mapiFrom_skipn, mapiFrom_firstn.
Qed.

Lemma mapiFrom_keys i (l : list T) :
  map (@key T) (JS.mapiFrom i (fun item key => {| item := item; key := key |}) l)
  = zcount i (length l).
Proof.
  revert i; induction l as [|x l IH]; intros i; [reflexivity|].
  cbn [JS.mapiFrom map length zcount]. now rewrite IH.
Qed.

Lemma withIndex_keys p (l : list (ItemWithKey T)) :
  map (fun it : ItemWithIndex T => key it) (withIndex p l) = map (@key T) l.
Proof. unfold withIndex. rewrite map_map. reflexivity. Qed.

(** Whatever the position and the side count, a visible item is an item
    of the list, keyed by its place there and indexed by its distance
    from the position. *)
Lemma visibleItems_sound p (it : ItemWithIndex T) :
  In it (visibleItems props p) ->
  0 <= key it < Z.of_nat (length (items props))
  /\ nth_error (items props) (Z.to_nat (key it)) = Some (item it)
  /\ index it = key it - p.
Proof.
  unfold visibleItems, withIndex. rewrite in_map_iff.
  intros (ik & <- & Hin). apply slice_incl in Hin.
  unfold withKeys, JS.mapi in Hin.
  destruct (mapiFrom_In _ _ _ _ _ _ Hin) as (j & x & Hj & ->).
  cbn [keyed key item index].
  assert (j < length (items props))%nat by (apply nth_error_Some; congruence).
  rewrite Z.add_0_l, Nat2Z.id. repeat split; try lia. exact Hj.
Qed.

Lemma visibleItems_keys p :
  0 <= sideItems props -> 0 <= p ->
  map (fun it : ItemWithIndex T => key it) (visibleItems props p)
  = zrange (Z.max 0 (p - sideItems props))
           (Z.min (Z.of_nat (length (items props))) (p + sideItems props + 1)).
Proof.
  intros Hs Hp. unfold visibleItems. rewrite withIndex_keys, withKeys_slice. cbv zeta.
  rewrite mapiFrom_keys, length_firstn, length_skipn.
  unfold start, finish, zrange.
  set (N := Z.of_nat (length (items props))).
  destruct (Z.ltb_spec (Z.max (p - sideItems props) 0) 0); [lia|].
  destruct (Z.ltb_spec (Z.min (p + sideItems props + 1) N) 0); [lia|].
  destruct (Z.le_gt_cases (p - sideItems props) N) as [Hle|Hgt].
  - f_equal; lia.
  - replace (Init.Nat.min _ _) with 0%nat by lia.
    replace (Z.to_nat (Z.min N (p + sideItems props + 1) - Z.max 0 (p - sideItems props)))
      with 0%nat by lia.
    reflexivity.
Qed.

Lemma visibleItems_centre p :
  0 <= sideItems props -> inBounds props p ->
  length (filter (fun it : ItemWithIndex T => index it =? 0) (visibleItems props p)) = 1%nat.
Proof.
  intros Hs Hp. pose proof (visibleItems_keys p Hs (proj1 Hp)) as Hk.
  assert (E : filter (fun it : ItemWithIndex T => index it =? 0) (visibleItems props p)
              = filter (fun it : ItemWithIndex T => key it - p =? 0) (visibleItems props p)).
  { apply filter_ext_in. intros it Hin.
    destruct (visibleItems_sound _ _ Hin) as (_ & _ & ->). reflexivity. }
  rewrite E.
  rewrite <- (length_map (fun it : ItemWithIndex T => key it)).
  rewrite <- (filter_map_swap (fun k => k - p =? 0) (fun it : ItemWithIndex T => key it)).
  rewrite Hk. unfold zrange. rewrite zcount_centre.
  unfold inBounds in Hp.
  destruct (Z.leb_spec (Z.max 0 (p - sideItems props)) p); [|lia].
  match goal with |- context [?a <? ?b] => destruct (Z.ltb_spec a b) end; [reflexivity|lia].
Qed.

End PositionModel.

Lemma Forall2_map_key (A B : Type) (f : A -> B) (P : B -> A -> Prop) (l : list A) :
  (forall x, In x l -> P (f x) x) ->
  Forall2 (fun i x => f x = i /\ P i x) (map f l) l.
Proof.
  induction l as [|a l IH]; intros H; constructor.
  - split; [reflexivity|]. apply H. now left.
  - apply IH. intros x Hx. apply H. now right.
Qed.

(** C5. For an item list of length N, a position p >= 0 (in particular a
    valid one) and sideItems s >= 0, the visible items are, in list order,
    exactly the items at the original indices max(0, p-s), ...,
    min(N, p+s+1) - 1: the i-th of them has key i, carries the list's item
    at i and has relative offset i - p.  The range lies inside the list (no
    wrap-around), and when p <= N-1 exactly one visible item has relative
    offset 0. *)
Theorem visibleItems_window (T : Type) (props : CoverflowProps T) (p : Z) :
  0 <= sideItems props -> 0 <= p ->
  let N := Z.of_nat (length (items props)) in
  let lo := Z.max 0 (p - sideItems props) in
  let hi := Z.min N (p + sideItems props + 1) in
  Forall2 (fun i (it : ItemWithIndex T) =>
             key it = i
             /\ nth_error (items props) (Z.to_nat i) = Some (item it)
             /\ index it = i - p)
          (zrange lo hi) (visibleItems props p)
  /\ (forall i, In i (zrange lo hi) <-> lo <= i < hi)
  /\ 0 <= lo /\ hi <= N
  /\ (p <= N - 1 ->
      length (filter (fun it : ItemWithIndex T => index it =? 0) (visibleItems props p)) = 1%nat).
Proof.
  intros Hs Hp N lo hi. split; [|split; [|split; [|split]]].
  - unfold lo, hi, N. rewrite <- (visibleItems_keys T props p Hs Hp).
    apply (Forall2_map_key _ _ (fun it : ItemWithIndex T => key it)
             (fun i it => nth_error (items props) (Z.to_nat i) = Some (item it)
                          /\ index it = i - p) _).
    intros it Hin. destruct (visibleItems_sound _ _ _ _ Hin) as (_ & Hnth & Hidx). now split.
  - intros i. apply zrange_In.
  - lia.
  - lia.
  - intros HpN. apply visibleItems_centre; [exact Hs|]. unfold inBounds. fold N. lia.
Qed.

Lemma visibleItems_window_witness :
  let props := defaultProps [10; 20; 30; 40; 50; 60; 70; 80; 90; 100]%nat in
  map (fun it : ItemWithIndex nat => (key it, item it, index it)) (visibleItems props 1)
  = [(0, 10%nat, -1); (1, 20%nat, 0); (2, 30%nat, 1); (3, 40%nat, 2); (4, 50%nat, 3)]
  /\ length (filter (fun it : ItemWithIndex nat => index it =? 0) (visibleItems props 1)) = 1%nat.
Proof.
  intros props. split; [reflexivity|].
  assert (Hs : 0 <= sideItems props) by (simpl; lia).
  assert (Hp : 0 <= 1) by lia.
  apply (visibleItems_window _ props 1 Hs Hp). simpl. lia.
Defined.

(** ** The transform function *)

(** C6. For every relative offset k and configuration, the transform has
    translateXPercent = (k == 0 ? 0 : centreGap * sign + gap * k),
    rotateYDegrees = (k == 0 ? 0 : -sign * angle),
    scaleXY = scale * (k == 0 ? 1 : scaleRatio),
    translateZ = (k == 0 ? 0 : -depth), with sign the sign of k as the
    specification defines it, and zIndex = 100 - abs(k); at offset 0 the
    translation, the rotation and translateZ are 0 and scaleXY is scale. *)
Theorem getTransform_spec (T : Type) (props : CoverflowProps T) (k : Z) :
  transX (getTransform props k)
  = (if k =? 0 then 0 else centreGap props * inject_Z (signOf k) + gap props * inject_Z k)%Q
  /\ rotation (getTransform props k)
     = (if k =? 0 then 0 else - inject_Z (signOf k) * angle props)%Q
  /\ scaleXY (getTransform props k)
     = (scale props * (if k =? 0 then 1 else scaleRatio props))%Q
  /\ transZ (getTransform props k) = (if k =? 0 then 0 else - depth props)%Q
  /\ t_perspective (getTransform props k) = perspective props
  /\ getZIndex k = 100 - Z.abs k
  /\ (transX (getTransform props 0) = 0%Q
      /\ rotation (getTransform props 0) = 0%Q
      /\ transZ (getTransform props 0) = 0%Q
      /\ (scaleXY (getTransform props 0) == scale props)%Q).
Proof.
  repeat split; try (destruct k; reflexivity).
  cbn [getTransform scaleXY Z.eqb]. ring.
Qed.

(** C7. For every k > 0 and one configuration, the transforms at offsets
    +k and -k have rotations of equal magnitude and opposite sign, equal
    translateZ, equal scaleXY and equal zIndex. *)
Theorem getTransform_symmetry (T : Type) (props : CoverflowProps T) (k : Z) :
  0 < k ->
  (rotation (getTransform props k) == - rotation (getTransform props (- k)))%Q
  /\ (Qabs (rotation (getTransform props k)) == Qabs (rotation (getTransform props (- k))))%Q
  /\ transZ (getTransform props k) = transZ (getTransform props (- k))
  /\ scaleXY (getTransform props k) = scaleXY (getTransform props (- k))
  /\ getZIndex k = getZIndex (- k).
Proof.
  intros Hk. destruct k as [|q|q]; try lia.
  assert (R : (rotation (getTransform props (Z.pos q))
               == - rotation (getTransform props (- Z.pos q)))%Q).
  { cbn [getTransform rotation Z.eqb Z.sgn Z.opp]. ring. }
  repeat split; try reflexivity.
  - exact R.
  - rewrite R. apply Qabs_opp.
Qed.

Lemma getTransform_symmetry_witness :
  let props := defaultProps (@nil unit) in
  (rotation (getTransform props 2) == - rotation (getTransform props (- 2)))%Q
  /\ (Qabs (rotation (getTransform props 2)) == Qabs (rotation (getTransform props (- 2))))%Q
  /\ transZ (getTransform props 2) = transZ (getTransform props (- 2))
  /\ scaleXY (getTransform props 2) = scaleXY (getTransform props (- 2))
  /\ getZIndex 2 = getZIndex (- 2).
Proof. intros props. apply (getTransform_symmetry _ props 2). lia. Defined.

(** ** The handlers, one event at a time *)

Section Handlers.

Variable T : Type.
Variable props : CoverflowProps T.

Lemma hooksAfter_one e h : hooksAfter props [e] h = snd (fst (handle props e h)).
Proof.
  unfold hooksAfter. cbn [run]. unfold bind, ret.
  destruct (handle props e h) as [[u h1] e1]. reflexivity.
Qed.

Lemma effectsOf_one e h : effectsOf props [e] h = snd (handle props e h).
Proof.
  unfold effectsOf. cbn [run]. unfold bind, ret.
  destruct (handle props e h) as [[u h1] e1]. cbn [snd]. apply app_nil_r.
Qed.

Lemma hooksAfter_cons e es h :
  hooksAfter props (e :: es) h = hooksAfter props es (hooksAfter props [e] h).
Proof.
  rewrite hooksAfter_one. unfold hooksAfter. cbn [run]. unfold bind.
  destruct (handle props e h) as [[u h1] e1]. cbn [fst snd].
  destruct (run props es h1) as [[u2 h2] e2]. reflexivity.
Qed.

Lemma effectsOf_cons e es h :
  effectsOf props (e :: es) h
  = effectsOf props [e] h ++ effectsOf props es (hooksAfter props [e] h).
Proof.
  rewrite hooksAfter_one, effectsOf_one. unfold effectsOf. cbn [run]. unfold bind.
  destruct (handle props e h) as [[u h1] e1]. cbn [fst snd].
  destruct (run props es h1) as [[u2 h2] e2]. reflexivity.
Qed.

(** The drag handler, case by case. *)
Lemma onDrag_commit first active mx h :
  let newX := (mx - baseline first h)%Q in
  JS.Qgtb (Qabs newX) (dragThreshold props) = true ->
  onDrag props first active mx h
  = (tt,
     {| position := clampPosition props (position h - JS.Qsign newX);
        preventClick := true;
        lastX := mx |},
     [SpringsStart (if active then newX * dragSpeed props else 0)%Q 0;
      SetPosition (position h) (clampPosition props (position h - JS.Qsign newX))]).
Proof.
  intros newX Hgt. subst newX. unfold onDrag, baseline in *.
  destruct h as [p pc lx], first; unfold bind, when, setLastX, getLastX, emit, ret;
    cbn [position preventClick lastX] in *; rewrite Hgt; reflexivity.
Qed.

Lemma onDrag_follow first active mx h :
  let newX := (mx - baseline first h)%Q in
  JS.Qgtb (Qabs newX) (dragThreshold props) = false ->
  onDrag props first active mx h
  = (tt,
     {| position := position h; preventClick := preventClick h; lastX := baseline first h |},
     [SpringsStart (if active then newX * dragSpeed props else 0)%Q 0]).
Proof.
  intros newX Hgt. subst newX. unfold onDrag, baseline in *.
  destruct h as [p pc lx], first; unfold bind, when, setLastX, getLastX, emit, ret;
    cbn [position preventClick lastX] in *; rewrite Hgt; reflexivity.
Qed.

(** The click handler, case by case. *)
Lemma handleClick_prevented clicked h :
  preventClick h = true ->
  handleClick props clicked h
  = (tt, {| position := position h; preventClick := false; lastX := lastX h |}, []).
Proof.
  intros Hp. unfold handleClick, bind, getPreventClick, setPreventClick.
  rewrite Hp. reflexivity.
Qed.

Lemma handleClick_centre clicked h :
  preventClick h = false -> index clicked = 0 ->
  handleClick props clicked h
  = (tt, h, if itemClicked props then [ItemClicked (item clicked)] else []).
Proof.
  intros Hp Hi. unfold handleClick, bind, getPreventClick, optCall, when, emit, ret.
  destruct h as [p pc lx]. cbn [position preventClick lastX] in *. subst pc.
  rewrite Hi. cbn [Z.eqb]. destruct (itemClicked props); reflexivity.
Qed.

Lemma handleClick_side clicked h :
  preventClick h = false -> index clicked <> 0 ->
  handleClick props clicked h
  = (tt,
     (if clickableSide props
      then {| position := position h + Z.sgn (index clicked);
              preventClick := preventClick h;
              lastX := lastX h |}
      else h),
     (if sideItemClicked props then [SideItemClicked (item clicked)] else [])
     ++ (if clickableSide props
         then [SetPosition (position h) (position h + Z.sgn (index clicked))]
         else [])).
Proof.
  intros Hp Hi. unfold handleClick, bind, getPreventClick, optCall, when, emit, ret, setPosition.
  destruct h as [p pc lx]. cbn [position preventClick lastX] in *. subst pc.
  apply Z.eqb_neq in Hi. rewrite Hi.
  destruct (sideItemClicked props), (clickableSide props); reflexivity.
Qed.

End Handlers.

(** ** Signs and comparisons on rationals *)

Lemma Qgtb_true x y : JS.Qgtb x y = true <-> (y < x)%Q.
Proof.
  unfold JS.Qgtb. rewrite Qgt_alt.
  destruct (x ?= y)%Q; split; intros H; congruence.
Qed.

Lemma Qgtb_false x y : JS.Qgtb x y = false <-> (x <= y)%Q.
Proof.
  rewrite Qle_alt. unfold JS.Qgtb.
  destruct (x ?= y)%Q; split; intros H; congruence.
Qed.

Lemma Qsign_pos x : (0 < x)%Q -> JS.Qsign x = 1.
Proof.
  unfold Qlt, JS.Qsign. destruct x as [n d]. cbn [Qnum Qden].
  rewrite Z.mul_1_r. destruct n; simpl; lia.
Qed.

Lemma Qsign_neg x : (x < 0)%Q -> JS.Qsign x = -1.
Proof.
  unfold Qlt, JS.Qsign. destruct x as [n d]. cbn [Qnum Qden].
  rewrite Z.mul_1_r. destruct n; simpl; lia.
Qed.

(** ** Clicks *)

(** C2. A click on a visible item with nonzero relative offset k, while
    the suppression flag is not set, calls the sideItemClicked callback
    exactly once, with that item's value, when it is supplied, and calls no
    other callback.  Whether or not a callback is supplied, when
    clickableSide is true Position changes by exactly sign(k), which brings
    it one step closer to the clicked item, and when clickableSide is false
    Position is unchanged. *)
Theorem side_click_one_step (T : Type) (props : CoverflowProps T)
        (h : Hooks) (clicked : ItemWithIndex T) :
  In clicked (visibleItems props (position h)) ->
  index clicked <> 0 ->
  preventClick h = false ->
  let h' := hooksAfter props [Click clicked] h in
  (sideItemClicked props = true ->
   filter isNotification (effectsOf props [Click clicked] h)
   = [SideItemClicked (item clicked)])
  /\ (sideItemClicked props = false ->
      filter isNotification (effectsOf props [Click clicked] h) = [])
  /\ (clickableSide props = true ->
      position h' = position h + Z.sgn (index clicked)
      /\ Z.abs (key clicked - position h') = Z.abs (key clicked - position h) - 1
      /\ commits (effectsOf props [Click clicked] h)
         = [SetPosition (position h) (position h + Z.sgn (index clicked))])
  /\ (clickableSide props = false ->
      position h' = position h /\ commits (effectsOf props [Click clicked] h) = []).
Proof.
  intros Hvis Hk Hflag h'. subst h'.
  rewrite hooksAfter_one, effectsOf_one. cbn [handle].
  rewrite (handleClick_side _ props clicked h Hflag Hk). cbn [fst snd].
  destruct (visibleItems_sound _ _ _ _ Hvis) as (_ & _ & Hidx).
  split; [|split; [|split]]; intros Hcase; rewrite Hcase.
  - destruct (clickableSide props); reflexivity.
  - destruct (clickableSide props); reflexivity.
  - cbn [position]. split; [reflexivity|]. split; [lia|].
    destruct (sideItemClicked props); reflexivity.
  - split; [reflexivity|]. destruct (sideItemClicked props); reflexivity.
Qed.

Lemma side_click_one_step_witness :
  let props := {| items := [10; 20; 30; 40; 50]%nat; sideItems := 3; startPosition := 2;
                  scale := 1; scaleRatio := 1; angle := 60; gap := 20; centreGap := 40;
                  perspective := 1000; depth := 200; itemClicked := true;
                  sideItemClicked := true; showReflections := true; dragThreshold := 100;
                  dragSpeed := 1 # 2; clickableSide := true |} in
  let h := initialHooks props in
  let clicked := {| keyed := {| item := 10%nat; key := 0 |}; index := -2 |} in
  filter isNotification (effectsOf props [Click clicked] h) = [SideItemClicked 10%nat]
  /\ position (hooksAfter props [Click clicked] h) = 1.
Proof.
  intros props h clicked.
  assert (Hvis : In clicked (visibleItems props (position h))) by (simpl; tauto).
  assert (Hk : index clicked <> 0) by (simpl; lia).
  assert (Hflag : preventClick h = false) by reflexivity.
  destruct (side_click_one_step _ props h clicked Hvis Hk Hflag) as (Hn & _ & Hc & _).
  split; [exact (Hn eq_refl)|]. destruct (Hc eq_refl) as (Hp & _). exact Hp.
Defined.

(** The Position part of a side click does not wait for a callback: with
    no callback supplied the click still moves Position. *)
Example side_click_without_callback :
  let props := {| items := [10; 20; 30; 40; 50]%nat; sideItems := 3; startPosition := 2;
                  scale := 1; scaleRatio := 1; angle := 60; gap := 20; centreGap := 40;
                  perspective := 1000; depth := 200; itemClicked := false;
                  sideItemClicked := false; showReflections := true; dragThreshold := 100;
                  dragSpeed := 1 # 2; clickableSide := true |} in
  run props [Click {| keyed := {| item := 10%nat; key := 0 |}; index := -2 |}]
      (initialHooks props)
  = (tt, {| position := 1; preventClick := false; lastX := 0 |}, [SetPosition 2 1]).
Proof. reflexivity. Qed.

Lemma drag_commits_threshold (T : Type) (props : CoverflowProps T) first active mx h :
  commits (effectsOf props [Drag first active mx] h) <> [] ->
  JS.Qgtb (Qabs (mx - baseline first h)) (dragThreshold props) = true.
Proof.
  intros Hc. destruct (JS.Qgtb _ _) eqn:E; [reflexivity|].
  exfalso. apply Hc. rewrite effectsOf_one. cbn [handle].
  rewrite (onDrag_follow _ props first active mx h E). reflexivity.
Qed.

(** C3. When a drag sample commits (and so sets the suppression flag),
    the very next click, whichever item it targets, calls no callback,
    makes no [setPosition] call, leaves Position as it is and clears the
    flag; the click after that one is dispatched normally: the centre
    item's click goes to itemClicked, a side item's click goes to
    sideItemClicked and, with clickableSide, moves Position by one. *)
Theorem click_suppressed_once (T : Type) (props : CoverflowProps T)
        (h : Hooks) (first active : bool) (mx : Q) (next after : ItemWithIndex T) :
  commits (effectsOf props [Drag first active mx] h) <> [] ->
  let h1 := hooksAfter props [Drag first active mx] h in
  let h2 := hooksAfter props [Click next] h1 in
  let h3 := hooksAfter props [Click after] h2 in
  preventClick h1 = true
  /\ effectsOf props [Click next] h1 = []
  /\ position h2 = position h1
  /\ preventClick h2 = false
  /\ effectsOf props [Click after] h2
     = (if index after =? 0
        then (if itemClicked props then [ItemClicked (item after)] else [])
        else (if sideItemClicked props then [SideItemClicked (item after)] else [])
             ++ (if clickableSide props
                 then [SetPosition (position h1) (position h1 + Z.sgn (index after))]
                 else []))
  /\ position h3
     = (if (index after =? 0) || negb (clickableSide props)
        then position h1
        else position h1 + Z.sgn (index after))
  /\ preventClick h3 = false.
Proof.
  intros Hc h1 h2 h3. apply drag_commits_threshold in Hc.
  assert (E1 : h1 = {| position := clampPosition props
                                     (position h - JS.Qsign (mx - baseline first h));
                       preventClick := true; lastX := mx |}).
  { unfold h1. rewrite hooksAfter_one. cbn [handle].
    now rewrite (onDrag_commit _ props first active mx h Hc). }
  assert (E2 : h2 = {| position := position h1; preventClick := false; lastX := lastX h1 |}).
  { unfold h2. rewrite hooksAfter_one. cbn [handle].
    rewrite handleClick_prevented; [reflexivity|]. now rewrite E1. }
  assert (F2 : preventClick h2 = false) by now rewrite E2.
  assert (P2 : position h2 = position h1) by now rewrite E2.
  split; [now rewrite E1|].
  split.
  { rewrite effectsOf_one. cbn [handle].
    rewrite handleClick_prevented; [reflexivity|]. now rewrite E1. }
  split; [exact P2|]. split; [exact F2|].
  unfold h3. rewrite hooksAfter_one, effectsOf_one. cbn [handle].
  destruct (Z.eqb_spec (index after) 0) as [Hz|Hnz].
  - rewrite (handleClick_centre _ props after h2 F2 Hz). cbn [fst snd orb].
    rewrite P2. repeat split. exact F2.
  - rewrite (handleClick_side _ props after h2 F2 Hnz). cbn [fst snd orb].
    rewrite P2. destruct (clickableSide props); cbn [negb position preventClick];
      repeat split; assumption.
Qed.

Lemma click_suppressed_once_witness :
  let props := {| items := [10; 20; 30; 40; 50]%nat; sideItems := 3; startPosition := 2;
                  scale := 1; scaleRatio := 1; angle := 60; gap := 20; centreGap := 40;
                  perspective := 1000; depth := 200; itemClicked := true;
                  sideItemClicked := true; showReflections := true; dragThreshold := 100;
                  dragSpeed := 1 # 2; clickableSide := true |} in
  let h := initialHooks props in
  let it := {| keyed := {| item := 10%nat; key := 0 |}; index := -1 |} in
  let h1 := hooksAfter props [Drag false true 101] h in
  position h1 = 1
  /\ effectsOf props [Click it] h1 = []
  /\ position (hooksAfter props [Click it] h1) = 1
  /\ effectsOf props [Click it] (hooksAfter props [Click it] h1)
     = [SideItemClicked 10%nat; SetPosition 1 0].
Proof.
  intros props h it h1.
  assert (Hc : commits (effectsOf props [Drag false true 101] h) <> []) by (simpl; discriminate).
  destruct (click_suppressed_once _ props h false true 101 it it Hc)
    as (_ & Hnone & Hpos & _ & Hnormal & _).
  split; [reflexivity|]. split; [exact Hnone|]. split; [exact Hpos|]. exact Hnormal.
Defined.

(** ** Drag samples *)

(** C9. Every drag sample whose rebased displacement newDelta has
    abs(newDelta) > dragThreshold sets the suppression flag and moves the
    baseline to the current displacement; this also happens when Position
    is at a list boundary and the clamped adjustment leaves it unchanged
    (at 0 for a positive newDelta, at N-1 for a negative one), and the next
    click is then discarded although Position did not change. *)
Theorem boundary_commit_suppresses_click (T : Type) (props : CoverflowProps T)
        (h : Hooks) (first active : bool) (mx : Q) :
  let newDelta := (mx - baseline first h)%Q in
  (dragThreshold props < Qabs newDelta)%Q ->
  let h' := hooksAfter props [Drag first active mx] h in
  preventClick h' = true
  /\ lastX h' = mx
  /\ position h' = clampPosition props (position h - JS.Qsign newDelta)
  /\ commits (effectsOf props [Drag first active mx] h)
     = [SetPosition (position h) (position h')]
  /\ (position h = 0 -> (0 < newDelta)%Q -> position h' = position h)
  /\ (1 <= Z.of_nat (length (items props)) ->
      position h = Z.of_nat (length (items props)) - 1 ->
      (newDelta < 0)%Q -> position h' = position h)
  /\ (forall clicked : ItemWithIndex T,
        effectsOf props [Click clicked] h' = []
        /\ position (hooksAfter props [Click clicked] h') = position h').
Proof.
  intros newDelta Hgt h'. apply Qgtb_true in Hgt.
  assert (E : h' = {| position := clampPosition props (position h - JS.Qsign newDelta);
                      preventClick := true; lastX := mx |}).
  { unfold h'. rewrite hooksAfter_one. cbn [handle].
    now rewrite (onDrag_commit _ props first active mx h Hgt). }
  rewrite E. cbn [position preventClick lastX].
  split; [reflexivity|]. split; [reflexivity|]. split; [reflexivity|].
  split; [|split; [|split]].
  - rewrite effectsOf_one. cbn [handle].
    rewrite (onDrag_commit _ props first active mx h Hgt). reflexivity.
  - intros H0 Hpos. rewrite (Qsign_pos _ Hpos). unfold clampPosition. lia.
  - intros HN Hlast Hneg. rewrite (Qsign_neg _ Hneg). unfold clampPosition. lia.
  - intros clicked. split.
    + rewrite effectsOf_one. cbn [handle]. now rewrite handleClick_prevented.
    + rewrite hooksAfter_one. cbn [handle]. now rewrite handleClick_prevented.
Qed.

Lemma boundary_commit_suppresses_click_witness :
  let props := defaultProps [10; 20; 30]%nat in
  let h := initialHooks props in
  let h' := hooksAfter props [Drag true true 150] h in
  position h = 0 /\ position h' = 0 /\ preventClick h' = true /\ lastX h' = 150%Q
  /\ effectsOf props [Click {| keyed := {| item := 20%nat; key := 1 |}; index := 1 |}] h' = [].
Proof.
  intros props h h'.
  assert (Hgt : (dragThreshold props < Qabs (150 - baseline true h))%Q) by reflexivity.
  destruct (boundary_commit_suppresses_click _ props h true true 150 Hgt)
    as (Hflag & Hbase & _ & _ & Hlow & _ & Hclick).
  split; [reflexivity|]. split; [apply Hlow; reflexivity|].
  split; [exact Hflag|]. split; [exact Hbase|]. apply Hclick.
Defined.

(** ** Position stays in bounds *)

Lemma handle_in_bounds (T : Type) (props : CoverflowProps T) (e : Event T) (h : Hooks) :
  1 <= Z.of_nat (length (items props)) ->
  inBounds props (position h) ->
  clicksVisible props [e] h ->
  inBounds props (position (hooksAfter props [e] h))
  /\ Forall (setsInBounds props) (effectsOf props [e] h).
Proof.
  intros HN Hin [Hvis _]. rewrite hooksAfter_one, effectsOf_one.
  destruct e as [first active mx | clicked]; cbn [handle].
  - destruct (JS.Qgtb (Qabs (mx - baseline first h)) (dragThreshold props)) eqn:E.
    + rewrite (onDrag_commit _ props first active mx h E). cbn [fst snd position].
      pose proof (clampPosition_bounds _ props
                    (position h - JS.Qsign (mx - baseline first h)) HN) as Hc.
      split; [exact Hc|].
      constructor; [exact I|]. constructor; [exact Hc|constructor].
    + rewrite (onDrag_follow _ props first active mx h E). cbn [fst snd position].
      split; [exact Hin|]. constructor; [exact I|constructor].
  - destruct (preventClick h) eqn:Hp.
    + rewrite (handleClick_prevented _ props clicked h Hp). cbn [fst snd position].
      split; [exact Hin|constructor].
    + destruct (Z.eq_dec (index clicked) 0) as [Hz|Hnz].
      * rewrite (handleClick_centre _ props clicked h Hp Hz). cbn [fst snd].
        split; [exact Hin|].
        destruct (itemClicked props); [constructor; [exact I|constructor]|constructor].
      * rewrite (handleClick_side _ props clicked h Hp Hnz). cbn [fst snd].
        destruct (visibleItems_sound _ _ _ _ Hvis) as (Hkey & _ & Hidx).
        assert (Hstep : inBounds props (position h + Z.sgn (index clicked))).
        { unfold inBounds in *. lia. }
        split.
        { destruct (clickableSide props); [exact Hstep|exact Hin]. }
        apply Forall_app. split.
        { destruct (sideItemClicked props); [constructor; [exact I|constructor]|constructor]. }
        destruct (clickableSide props); [constructor; [exact Hstep|constructor]|constructor].
Qed.

Lemma clicksVisible_cons (T : Type) (props : CoverflowProps T) e es h :
  clicksVisible props (e :: es) h ->
  clicksVisible props [e] h /\ clicksVisible props es (hooksAfter props [e] h).
Proof. cbn [clicksVisible]. tauto. Qed.

Lemma run_in_bounds (T : Type) (props : CoverflowProps T) (es : list (Event T)) :
  1 <= Z.of_nat (length (items props)) ->
  forall h,
    inBounds props (position h) ->
    clicksVisible props es h ->
    inBounds props (position (hooksAfter props es h))
    /\ Forall (setsInBounds props) (effectsOf props es h).
Proof.
  intros HN. induction es as [|e es IH]; intros h Hin Hvis.
  - split; [exact Hin|constructor].
  - apply clicksVisible_cons in Hvis. destruct Hvis as [Hv1 Hv2].
    destruct (handle_in_bounds _ props e h HN Hin Hv1) as [Hin1 Hf1].
    destruct (IH _ Hin1 Hv2) as [Hin2 Hf2].
    rewrite hooksAfter_cons, effectsOf_cons. split; [exact Hin2|].
    apply Forall_app. now split.
Qed.

(** C4. For a list of length N >= 1, clamp(n) = max(0, min(n, N-1)) lies in
    [0, N-1] for every integer n; Position is in [0, N-1] when it is
    initialised from startPosition and after every later mutation (drag
    commits and side clicks), along any sequence of drag samples and
    clicks whose clicks target items visible at the time. *)
Theorem position_always_in_bounds (T : Type) (props : CoverflowProps T) :
  let N := Z.of_nat (length (items props)) in
  1 <= N ->
  (forall n : Z,
      clampPosition props n = Z.max 0 (Z.min n (N - 1))
      /\ 0 <= clampPosition props n <= N - 1)
  /\ 0 <= position (initialHooks props) <= N - 1
  /\ (forall (es : list (Event T)) (h : Hooks),
        0 <= position h <= N - 1 ->
        clicksVisible props es h ->
        0 <= position (hooksAfter props es h) <= N - 1
        /\ Forall (setsInBounds props) (effectsOf props es h)).
Proof.
  intros N HN. split; [|split].
  - intros n. split; [reflexivity|]. now apply clampPosition_bounds.
  - now apply clampPosition_bounds.
  - intros es h Hin Hvis. now apply run_in_bounds.
Qed.

Lemma position_always_in_bounds_witness :
  let props := {| items := [10; 20; 30]%nat; sideItems := 3; startPosition := 7;
                  scale := 1; scaleRatio := 1; angle := 60; gap := 20; centreGap := 40;
                  perspective := 1000; depth := 200; itemClicked := true;
                  sideItemClicked := true; showReflections := true; dragThreshold := 100;
                  dragSpeed := 1 # 2; clickableSide := true |} in
  position (initialHooks props) = 2
  /\ 0 <= position (initialHooks props) <= 2
  /\ clampPosition props (-4) = 0.
Proof.
  intros props.
  assert (HN : 1 <= Z.of_nat (length (items props))) by (simpl; lia).
  destruct (position_always_in_bounds _ props HN) as (Hclamp & Hinit & _).
  split; [reflexivity|]. split; [exact Hinit|]. reflexivity.
Defined.

(** A click that does not target a visible item escapes the bounds: the
    click handler adds the sign of the offset without clamping. *)
Example handleClick_not_clamped :
  let props := {| items := [10]%nat; sideItems := 3; startPosition := 0;
                  scale := 1; scaleRatio := 1; angle := 60; gap := 20; centreGap := 40;
                  perspective := 1000; depth := 200; itemClicked := false;
                  sideItemClicked := false; showReflections := true; dragThreshold := 100;
                  dragSpeed := 1 # 2; clickableSide := true |} in
  position (hooksAfter props
              [Click {| keyed := {| item := 10%nat; key := 1 |}; index := 1 |}]
              (initialHooks props)) = 1.
Proof. reflexivity. Qed.

(** ** The empty list *)

Lemma visibleItems_empty (T : Type) (props : CoverflowProps T) p :
  items props = [] -> visibleItems props p = [].
Proof.
  intros HN. unfold visibleItems, withKeys. rewrite HN. cbn [JS.mapi JS.mapiFrom].
  now rewrite slice_empty.
Qed.

Lemma run_empty (T : Type) (props : CoverflowProps T) (es : list (Event T)) :
  items props = [] ->
  forall h,
    position h = 0 ->
    clicksVisible props es h ->
    position (hooksAfter props es h) = 0
    /\ filter isNotification (effectsOf props es h) = []
    /\ Forall isDrag es.
Proof.
  intros HN. induction es as [|e es IH]; intros h Hp Hvis.
  - split; [exact Hp|]. split; [reflexivity|constructor].
  - apply clicksVisible_cons in Hvis. destruct Hvis as [[Hv1 _] Hv2].
    destruct e as [first active mx | clicked].
    2:{ rewrite (visibleItems_empty _ props _ HN) in Hv1. destruct Hv1. }
    assert (H1 : position (hooksAfter props [Drag first active mx] h) = 0
                 /\ filter isNotification (effectsOf props [Drag first active mx] h) = []).
    { rewrite hooksAfter_one, effectsOf_one. cbn [handle].
      destruct (JS.Qgtb (Qabs (mx - baseline first h)) (dragThreshold props)) eqn:E.
      - rewrite (onDrag_commit _ props first active mx h E). cbn [fst snd position].
        split; [now apply clampPosition_empty|reflexivity].
      - rewrite (onDrag_follow _ props first active mx h E). cbn [fst snd position].
        split; [exact Hp|reflexivity]. }
    destruct H1 as [Hp1 Hn1]. destruct (IH _ Hp1 Hv2) as (Hp2 & Hn2 & Hd).
    rewrite hooksAfter_cons, effectsOf_cons, filter_app, Hn1, Hn2.
    split; [exact Hp2|]. split; [reflexivity|]. constructor; [exact I|exact Hd].
Qed.

(** C10. With an empty item list every operation still yields a result
    (all the functions of the model are total, none of the JavaScript
    operations involved can throw): the initial Position is
    max(0, min(startPosition, -1)) = 0 for every startPosition, the range
    [max(0, position - sideItems), min(0, position + sideItems + 1)) is
    empty and no item is visible at any position, so no click can be
    delivered, no callback is ever called and Position stays 0. *)
Theorem empty_list_is_safe (T : Type) (props : CoverflowProps T) :
  items props = [] ->
  position (initialHooks props) = Z.max 0 (Z.min (startPosition props) (-1))
  /\ position (initialHooks props) = 0
  /\ (forall p : Z,
        zrange (Z.max 0 (p - sideItems props)) (Z.min 0 (p + sideItems props + 1)) = []
        /\ visibleItems props p = [])
  /\ (forall es : list (Event T),
        clicksVisible props es (initialHooks props) ->
        Forall isDrag es
        /\ filter isNotification (effectsOf props es (initialHooks props)) = []
        /\ position (hooksAfter props es (initialHooks props)) = 0
        /\ visibleItems props (position (hooksAfter props es (initialHooks props))) = []).
Proof.
  intros HN.
  assert (H0 : position (initialHooks props) = 0).
  { cbn [initialHooks position]. now apply clampPosition_empty. }
  split; [|split; [exact H0|split]].
  - cbn [initialHooks position]. unfold clampPosition. rewrite HN. reflexivity.
  - intros p. split; [|now apply visibleItems_empty].
    unfold zrange. replace (Z.to_nat _) with 0%nat by lia. reflexivity.
  - intros es Hvis. destruct (run_empty _ props es HN _ H0 Hvis) as (Hp & Hn & Hd).
    repeat split; try assumption. now apply visibleItems_empty.
Qed.

Lemma empty_list_is_safe_witness :
  let props := {| items := @nil nat; sideItems := 3; startPosition := 4;
                  scale := 1; scaleRatio := 1; angle := 60; gap := 20; centreGap := 40;
                  perspective := 1000; depth := 200; itemClicked := true;
                  sideItemClicked := true; showReflections := true; dragThreshold := 100;
                  dragSpeed := 1 # 2; clickableSide := true |} in
  position (initialHooks props) = 0
  /\ visibleItems props 0 = []
  /\ position (hooksAfter props [Drag true true 150; Drag false false (-80)]
                          (initialHooks props)) = 0.
Proof.
  intros props.
  assert (HN : items props = []) by reflexivity.
  destruct (empty_list_is_safe _ props HN) as (_ & H0 & Hwin & Hrun).
  split; [exact H0|]. split; [apply Hwin|].
  apply (Hrun [Drag true true 150; Drag false false (-80)]). simpl. tauto.
Defined.

(** ** dragSpeed only scales the follow offset *)

(** Configurations that agree on everything but dragSpeed are related by
    [withDragSpeed]. *)
Lemma differ_only_in_dragSpeed (T : Type) (p1 p2 : CoverflowProps T) :
  items p1 = items p2 -> sideItems p1 = sideItems p2 ->
  startPosition p1 = startPosition p2 -> scale p1 = scale p2 ->
  scaleRatio p1 = scaleRatio p2 -> angle p1 = angle p2 -> gap p1 = gap p2 ->
  centreGap p1 = centreGap p2 -> perspective p1 = perspective p2 ->
  depth p1 = depth p2 -> itemClicked p1 = itemClicked p2 ->
  sideItemClicked p1 = sideItemClicked p2 -> showReflections p1 = showReflections p2 ->
  dragThreshold p1 = dragThreshold p2 -> clickableSide p1 = clickableSide p2 ->
  p2 = withDragSpeed (dragSpeed p2) p1.
Proof.
  destruct p1, p2. cbn. intros. subst. reflexivity.
Qed.

Lemma handle_dragSpeed (T : Type) (props : CoverflowProps T) (v : Q) (e : Event T) (h : Hooks) :
  hooksAfter (withDragSpeed v props) [e] h = hooksAfter props [e] h
  /\ withoutSprings (effectsOf (withDragSpeed v props) [e] h)
     = withoutSprings (effectsOf props [e] h).
Proof.
  rewrite !hooksAfter_one, !effectsOf_one.
  destruct e as [first active mx | clicked]; cbn [handle].
  - destruct (JS.Qgtb (Qabs (mx - baseline first h)) (dragThreshold props)) eqn:E.
    + rewrite (onDrag_commit _ props first active mx h E).
      rewrite (onDrag_commit _ (withDragSpeed v props) first active mx h E).
      split; reflexivity.
    + rewrite (onDrag_follow _ props first active mx h E).
      rewrite (onDrag_follow _ (withDragSpeed v props) first active mx h E).
      split; reflexivity.
  - split; reflexivity.
Qed.

Lemma withoutSprings_app (T : Type) (a b : list (Effect T)) :
  withoutSprings (a ++ b) = withoutSprings a ++ withoutSprings b.
Proof. apply filter_app. Qed.

(** C8. Two runs on the same event stream whose configurations differ
    only in dragSpeed go through the same hooks (Position, baseline,
    suppression flag) and make the same [setPosition] and callback calls,
    in the same order; dragSpeed shows only in the follow offset handed to
    the springs, which for each sample is newDelta * dragSpeed while the
    gesture is active and 0 otherwise, newDelta being the displacement
    rebased to the baseline, the quantity whose absolute value is compared
    with dragThreshold. *)
Theorem dragSpeed_only_scales_follow (T : Type) (props : CoverflowProps T) (v : Q)
        (es : list (Event T)) (h : Hooks) :
  hooksAfter (withDragSpeed v props) es h = hooksAfter props es h
  /\ withoutSprings (effectsOf (withDragSpeed v props) es h)
     = withoutSprings (effectsOf props es h)
  /\ commits (effectsOf (withDragSpeed v props) es h) = commits (effectsOf props es h)
  /\ (forall (first active : bool) (mx : Q),
        let newDelta := (mx - baseline first h)%Q in
        followOffsets (effectsOf props [Drag first active mx] h)
        = [if active then newDelta * dragSpeed props else 0]%Q
        /\ (commits (effectsOf props [Drag first active mx] h) <> []
            <-> (dragThreshold props < Qabs newDelta)%Q)).
Proof.
  assert (Main : forall es h,
             hooksAfter (withDragSpeed v props) es h = hooksAfter props es h
             /\ withoutSprings (effectsOf (withDragSpeed v props) es h)
                = withoutSprings (effectsOf props es h)).
  { clear es h. induction es as [|e es IH]; intros h.
    - split; reflexivity.
    - destruct (handle_dragSpeed T props v e h) as [Hh He].
      rewrite (hooksAfter_cons _ props), (hooksAfter_cons _ (withDragSpeed v props)).
      rewrite (effectsOf_cons _ props), (effectsOf_cons _ (withDragSpeed v props)).
      rewrite !withoutSprings_app, Hh, He.
      destruct (IH (hooksAfter props [e] h)) as [IHh IHe].
      now rewrite IHh, IHe. }
  destruct (Main es h) as [Hh He].
  split; [exact Hh|]. split; [exact He|]. split.
  - assert (C : forall l : list (Effect T), commits l = commits (withoutSprings l)).
    { intros l. unfold commits, withoutSprings. induction l as [|[x r|b a|x|x] l IHl];
        cbn [filter isSetPosition isSpringsStart negb]; congruence. }
    now rewrite (C (effectsOf _ es h)), (C (effectsOf props es h)), He.
  - intros first active mx newDelta. rewrite effectsOf_one. cbn [handle].
    destruct (JS.Qgtb (Qabs (mx - baseline first h)) (dragThreshold props)) eqn:E.
    + rewrite (onDrag_commit _ props first active mx h E). cbn [snd].
      split; [reflexivity|]. split; [intros _; now apply Qgtb_true|discriminate].
    + rewrite (onDrag_follow _ props first active mx h E). cbn [snd].
      split; [reflexivity|]. split; [intros H; now elim H|].
      intros Hlt. apply Qgtb_false in E. unfold newDelta in Hlt.
      exfalso. apply (Qlt_not_le _ _ Hlt E).
Qed.

(** ** Commits of one gesture *)

Section Gesture.

Variable T : Type.
Variable props : CoverflowProps T.

Lemma commits_app (a b : list (Effect T)) : commits (a ++ b) = commits a ++ commits b.
Proof. apply filter_app. Qed.

(** The samples after the first: the commits are those of the threshold
    comparison started at the stored baseline. *)
Lemma continued_run (samples : list (bool * Q)) : forall h,
  let signs := commitSigns (dragThreshold props) (lastX h) (map snd samples) in
  commits (effectsOf props (continued samples) h) = commitEffects props (position h) signs
  /\ position (hooksAfter props (continued samples) h) = commitPosition props (position h) signs.
Proof.
  induction samples as [|[a mx] rest IH]; intros h; [split; reflexivity|].
  cbn [continued map fst snd commitSigns]. fold (continued (T := T) rest).
  rewrite hooksAfter_cons, effectsOf_cons, commits_app.
  rewrite hooksAfter_one, effectsOf_one. cbn [handle].
  change (lastX h) with (baseline false h).
  destruct (JS.Qgtb (Qabs (mx - baseline false h)) (dragThreshold props)) eqn:E.
  - rewrite (onDrag_commit _ props false a mx h E). cbn [fst snd].
    destruct (IH {| position := clampPosition props
                                  (position h - JS.Qsign (mx - baseline false h));
                    preventClick := true; lastX := mx |}) as [IHc IHp].
    cbn [position lastX] in IHc, IHp. rewrite IHc, IHp. split; reflexivity.
  - rewrite (onDrag_follow _ props false a mx h E). cbn [fst snd].
    destruct (IH {| position := position h; preventClick := preventClick h;
                    lastX := baseline false h |}) as [IHc IHp].
    cbn [position lastX] in IHc, IHp. rewrite IHc, IHp. split; reflexivity.
Qed.

(** A whole gesture: its first sample resets the baseline to 0. *)
Lemma gesture_run (samples : list (bool * Q)) (h : Hooks) :
  let signs := commitSigns (dragThreshold props) 0 (map snd samples) in
  commits (effectsOf props (gesture samples) h) = commitEffects props (position h) signs
  /\ position (hooksAfter props (gesture samples) h) = commitPosition props (position h) signs.
Proof.
  destruct samples as [|[a mx] rest]; [split; reflexivity|].
  cbn [gesture map fst snd commitSigns].
  rewrite hooksAfter_cons, effectsOf_cons, commits_app.
  rewrite hooksAfter_one, effectsOf_one. cbn [handle].
  destruct (JS.Qgtb (Qabs (mx - 0)) (dragThreshold props)) eqn:E.
  - rewrite (onDrag_commit _ props true a mx h E). cbn [fst snd baseline].
    destruct (continued_run rest
                {| position := clampPosition props (position h - JS.Qsign (mx - 0));
                   preventClick := true; lastX := mx |}) as [Hc Hp].
    cbn [position lastX] in Hc, Hp. rewrite Hc, Hp. split; reflexivity.
  - rewrite (onDrag_follow _ props true a mx h E). cbn [fst snd baseline].
    destruct (continued_run rest
                {| position := position h; preventClick := preventClick h;
                   lastX := 0 |}) as [Hc Hp].
    cbn [position lastX] in Hc, Hp. rewrite Hc, Hp. split; reflexivity.
Qed.

(** Commits that all go the same way form a chain. *)
Lemma commitEffects_chain (sign : Z) (signs : list Z) : forall p,
  Forall (eq sign) signs ->
  commitEffects props p signs = commitChain props sign p (length signs)
  /\ commitPosition props p signs
     = Nat.iter (length signs) (fun q => clampPosition props (q - sign)) p.
Proof.
  induction signs as [|s rest IH]; intros p Hall; [split; reflexivity|].
  inversion Hall as [|? ? Hs Hrest]; subst.
  destruct (IH (clampPosition props (p - s)) Hrest) as [IHc IHp].
  cbn [commitEffects commitChain length commitPosition fold_left].
  unfold commitPosition in IHp. rewrite IHc, IHp. split; [reflexivity|].
  symmetry. exact (Nat.iter_succ_r (length rest) Z (fun q => clampPosition props (q - s)) p).
Qed.

Lemma commitEffects_length p signs : length (commitEffects props p signs) = length signs.
Proof.
  revert p; induction signs as [|s rest IH]; intros p; [reflexivity|].
  cbn [commitEffects length]. now rewrite IH.
Qed.

End Gesture.

(** ** Counting the commits of a monotonic drag *)

Lemma last_cons_default (A : Type) (m d : A) (rest : list A) :
  last (m :: rest) d = last rest m.
Proof.
  revert m d; induction rest as [|x rest IH]; intros m d; [reflexivity|].
  change (last (m :: x :: rest) d) with (last (x :: rest) d).
  now rewrite (IH x d), (IH x m).
Qed.

Lemma count_succ (n : nat) : (inject_Z (Z.of_nat (S n)) == inject_Z (Z.of_nat n) + 1)%Q.
Proof. rewrite Nat2Z.inj_succ. unfold Z.succ. rewrite inject_Z_plus. reflexivity. Qed.

Section Monotonic.

Variable threshold : Q.
Hypothesis threshold_pos : (0 < threshold)%Q.

(** Along ascending samples every commit has sign 1 and uses up more
    than [threshold] of the way from the baseline to the last sample. *)
Lemma commitSigns_ascending (ms : list Q) : forall b m0 : Q,
  (b <= m0)%Q -> ascending m0 ms = true ->
  let signs := commitSigns threshold b ms in
  Forall (eq 1) signs
  /\ (inject_Z (Z.of_nat (length signs)) * threshold <= last ms m0 - b)%Q
  /\ (signs <> [] -> (inject_Z (Z.of_nat (length signs)) * threshold < last ms m0 - b)%Q).
Proof.
  induction ms as [|m rest IH]; intros b m0 Hb Hasc.
  - cbn [commitSigns length last Z.of_nat]. change (inject_Z 0) with 0%Q.
    split; [constructor|]. split; [lra|]. intros H; now elim H.
  - cbn [ascending] in Hasc. apply andb_true_iff in Hasc. destruct Hasc as [Hle Hasc].
    apply Qle_bool_iff in Hle. rewrite last_cons_default. cbn [commitSigns].
    destruct (JS.Qgtb (Qabs (m - b)) threshold) eqn:E.
    + apply Qgtb_true in E. rewrite Qabs_pos in E by lra.
      destruct (IH m m (Qle_refl m) Hasc) as (IHs & IHc & _).
      cbn zeta in *. cbn [length]. rewrite count_succ.
      split; [|split; [|intros _]]; try lra.
      constructor; [|exact IHs]. symmetry. apply Qsign_pos. lra.
    + destruct (IH b m) as (IHs & IHc & IHlt); [lra|exact Hasc|].
      split; [exact IHs|]. split; assumption.
Qed.

Lemma commitSigns_descending (ms : list Q) : forall b m0 : Q,
  (m0 <= b)%Q -> descending m0 ms = true ->
  let signs := commitSigns threshold b ms in
  Forall (eq (-1)) signs
  /\ (inject_Z (Z.of_nat (length signs)) * threshold <= b - last ms m0)%Q
  /\ (signs <> [] -> (inject_Z (Z.of_nat (length signs)) * threshold < b - last ms m0)%Q).
Proof.
  induction ms as [|m rest IH]; intros b m0 Hb Hdesc.
  - cbn [commitSigns length last Z.of_nat]. change (inject_Z 0) with 0%Q.
    split; [constructor|]. split; [lra|]. intros H; now elim H.
  - cbn [descending] in Hdesc. apply andb_true_iff in Hdesc. destruct Hdesc as [Hle Hdesc].
    apply Qle_bool_iff in Hle. rewrite last_cons_default. cbn [commitSigns].
    destruct (JS.Qgtb (Qabs (m - b)) threshold) eqn:E.
    + apply Qgtb_true in E. rewrite Qabs_neg in E by lra.
      destruct (IH m m (Qle_refl m) Hdesc) as (IHs & IHc & _).
      cbn zeta in *. cbn [length]. rewrite count_succ.
      split; [|split; [|intros _]]; try lra.
      constructor; [|exact IHs]. symmetry. apply Qsign_neg. lra.
    + destruct (IH b m) as (IHs & IHc & IHlt); [lra|exact Hdesc|].
      split; [exact IHs|]. split; assumption.
Qed.

Lemma count_nonneg (n : nat) : (0 <= inject_Z (Z.of_nat n))%Q.
Proof. change 0%Q with (inject_Z 0). rewrite <- Zle_Qle. lia. Qed.

(** The commits of a monotonic drag reaching [d] all go against the sign
    of [d]; [threshold] times their number is at most [abs d], and less
    than [abs d] when there is a commit. *)
Lemma commitSigns_monotone (d : Q) (ms : list Q) :
  monotoneTo d ms ->
  let signs := commitSigns threshold 0 ms in
  Forall (eq (JS.Qsign d)) signs
  /\ (Z.of_nat (length signs) <= Qfloor (Qabs d / threshold))%Z
  /\ (signs <> [] -> (inject_Z (Z.of_nat (length signs)) * threshold < Qabs d)%Q).
Proof.
  intros [Hlast Hdir] signs.
  assert (Hsum : (Forall (eq 1) signs \/ Forall (eq (-1)) signs)
                 /\ (inject_Z (Z.of_nat (length signs)) * threshold <= Qabs d)%Q
                 /\ (signs <> [] ->
                     (inject_Z (Z.of_nat (length signs)) * threshold < Qabs d)%Q
                     /\ (Forall (eq 1) signs -> (0 < d)%Q)
                     /\ (Forall (eq (-1)) signs -> (d < 0)%Q))).
  { destruct Hdir as [Hasc|Hdesc].
    - destruct (commitSigns_ascending ms 0 0 (Qle_refl 0) Hasc) as (Hs & Hc & Hlt).
      fold signs in Hs, Hc, Hlt. rewrite Hlast in Hc, Hlt.
      pose proof (Qle_Qabs d) as Habs.
      split; [now left|]. split; [lra|]. intros Hne. specialize (Hlt Hne).
      pose proof (count_nonneg (length signs)) as Hn.
      assert (0 < d)%Q by nra.
      split; [lra|]. split; [intros _; assumption|].
      intros Hneg. destruct signs as [|s rest]; [now elim Hne|].
      inversion Hs; inversion Hneg; subst; discriminate.
    - destruct (commitSigns_descending ms 0 0 (Qle_refl 0) Hdesc) as (Hs & Hc & Hlt).
      fold signs in Hs, Hc, Hlt. rewrite Hlast in Hc, Hlt.
      pose proof (Qle_Qabs (- d)) as Habs. rewrite Qabs_opp in Habs.
      split; [now right|]. split; [lra|]. intros Hne. specialize (Hlt Hne).
      pose proof (count_nonneg (length signs)) as Hn.
      assert (d < 0)%Q by nra.
      split; [lra|]. split; [|intros _; assumption].
      intros Hpos. destruct signs as [|s rest]; [now elim Hne|].
      inversion Hs; inversion Hpos; subst; discriminate. }
  destruct Hsum as (Hs & Hc & Hne).
  split; [|split].
  - destruct signs as [|s rest] eqn:Es; [constructor|].
    assert (Hnil : s :: rest <> []) by discriminate.
    destruct (Hne Hnil) as (_ & Hpos & Hneg).
    destruct Hs as [Hs|Hs].
    + now rewrite (Qsign_pos _ (Hpos Hs)).
    + now rewrite (Qsign_neg _ (Hneg Hs)).
  - rewrite <- (Qfloor_Z (Z.of_nat (length signs))). apply Qfloor_resp_le.
    apply Qle_shift_div_l; assumption.
  - intros Hnil. now destruct (Hne Hnil).
Qed.

End Monotonic.

Lemma commitSigns_threshold_ext (t1 t2 : Q) (ms : list Q) : forall b,
  (t1 == t2)%Q -> commitSigns t1 b ms = commitSigns t2 b ms.
Proof.
  induction ms as [|m rest IH]; intros b Ht; [reflexivity|].
  cbn [commitSigns]. unfold JS.Qgtb.
  rewrite (Qcompare_comp _ _ (Qeq_refl (Qabs (m - b))) _ _ Ht).
  destruct (Qabs (m - b) ?= t2)%Q; rewrite ?(IH _ Ht); reflexivity.
Qed.

(** C1 (as amended). For dragThreshold > 0 and one gesture whose samples
    are monotonic and reach the displacement d, processed in order, the
    drag handler commits at most floor(abs(d)/dragThreshold) position
    changes, and, when it commits at all, fewer than abs(d)/dragThreshold:
    one at each sample whose displacement, rebased to the sample of the
    previous commit, strictly exceeds dragThreshold.  Each commit is
    Position := clamp(Position - sign(d)).  A drag to 250 sampled at every
    whole pixel with dragThreshold = 100 commits exactly 2 changes, each
    Position := clamp(Position - 1). *)
Theorem monotonic_drag_commits (T : Type) (props : CoverflowProps T)
        (samples : list (bool * Q)) (d : Q) (h : Hooks) :
  (0 < dragThreshold props)%Q ->
  monotoneTo d (map snd samples) ->
  let cs := commits (effectsOf props (gesture samples) h) in
  let step := fun p => clampPosition props (p - JS.Qsign d) in
  Z.of_nat (length cs) <= Qfloor (Qabs d / dragThreshold props)
  /\ (cs <> [] -> (inject_Z (Z.of_nat (length cs)) * dragThreshold props < Qabs d)%Q)
  /\ length cs = length (commitSigns (dragThreshold props) 0 (map snd samples))
  /\ cs = commitChain props (JS.Qsign d) (position h) (length cs)
  /\ position (hooksAfter props (gesture samples) h) = Nat.iter (length cs) step (position h)
  /\ ((dragThreshold props == 100)%Q ->
      samples = pixelSteps 250 ->
      cs = [SetPosition (position h) (clampPosition props (position h - 1));
            SetPosition (clampPosition props (position h - 1))
                        (clampPosition props (clampPosition props (position h - 1) - 1))]).
Proof.
  intros HT Hmono cs step.
  destruct (gesture_run T props samples h) as [Hc Hp].
  destruct (commitSigns_monotone _ HT d (map snd samples) Hmono) as (Hs & Hn & Hlt).
  assert (Hlen : length cs = length (commitSigns (dragThreshold props) 0 (map snd samples))).
  { unfold cs. rewrite Hc. apply commitEffects_length. }
  destruct (commitEffects_chain T props (JS.Qsign d) _ (position h) Hs) as [Hchain Hpos].
  split; [now rewrite Hlen|]. split; [|split; [exact Hlen|split; [|split]]].
  - intros Hne. rewrite Hlen. apply Hlt. intros Hnil. apply Hne.
    apply length_zero_iff_nil. rewrite Hlen, Hnil. reflexivity.
  - rewrite Hlen. unfold cs. now rewrite Hc.
  - rewrite Hlen, Hp. exact Hpos.
  - intros H100 Hsamples. unfold cs. rewrite Hc, Hsamples.
    rewrite (commitSigns_threshold_ext _ 100 _ 0 H100).
    replace (commitSigns 100 0 (map snd (pixelSteps 250))) with [1; 1] by (vm_compute; reflexivity).
    reflexivity.
Qed.

Lemma monotonic_drag_commits_witness :
  let props := {| items := [10; 20; 30; 40; 50]%nat; sideItems := 3; startPosition := 4;
                  scale := 1; scaleRatio := 1; angle := 60; gap := 20; centreGap := 40;
                  perspective := 1000; depth := 200; itemClicked := true;
                  sideItemClicked := true; showReflections := true; dragThreshold := 100;
                  dragSpeed := 1 # 2; clickableSide := true |} in
  (0 < dragThreshold props)%Q
  /\ monotoneTo 250 (map snd (pixelSteps 250))
  /\ commits (effectsOf props (gesture (pixelSteps 250)) (initialHooks props))
     = [SetPosition 4 3; SetPosition 3 2].
Proof.
  intros props.
  assert (HT : (0 < dragThreshold props)%Q) by reflexivity.
  assert (Hmono : monotoneTo 250 (map snd (pixelSteps 250))).
  { split; [vm_compute; reflexivity|left; vm_compute; reflexivity]. }
  split; [exact HT|]. split; [exact Hmono|].
  destruct (monotonic_drag_commits nat props (pixelSteps 250) 250 (initialHooks props) HT Hmono)
    as (_ & _ & _ & _ & _ & Hscenario).
  apply Hscenario; reflexivity.
Defined.

(** The claim as first stated does not hold: a drag to 200 sampled at
    every whole pixel with dragThreshold = 100 commits once, at 101, and
    would need to reach 202 to commit again, while floor(200/100) = 2. *)
Lemma monotonic_drag_count_counterexample :
  let props := {| items := [10; 20; 30; 40; 50]%nat; sideItems := 3; startPosition := 4;
                  scale := 1; scaleRatio := 1; angle := 60; gap := 20; centreGap := 40;
                  perspective := 1000; depth := 200; itemClicked := true;
                  sideItemClicked := true; showReflections := true; dragThreshold := 100;
                  dragSpeed := 1 # 2; clickableSide := true |} in
  let cs := commits (effectsOf props (gesture (pixelSteps 200)) (initialHooks props)) in
  1 <= Z.of_nat (length (items props))
  /\ (0 < dragThreshold props)%Q
  /\ monotoneTo 200 (map snd (pixelSteps 200))
  /\ cs = [SetPosition 4 3]
  /\ Qfloor (Qabs 200 / dragThreshold props) = 2
  /\ Z.of_nat (length cs) <> Qfloor (Qabs 200 / dragThreshold props).
Proof.
  intros props cs.
  assert (Hcs : cs = [SetPosition 4 3]) by (vm_compute; reflexivity).
  split; [simpl; lia|]. split; [reflexivity|].
  split; [split; [vm_compute; reflexivity|left; vm_compute; reflexivity]|].
  split; [exact Hcs|]. split; [reflexivity|].
  rewrite Hcs. vm_compute. discriminate.
Qed.

(** With coarser samples the count drops further: when the only sample
    past the threshold is the one at 250, there is one commit. *)
Example coarse_drag_commits_once :
  commits (effectsOf (defaultProps [10; 20; 30]%nat)
                     (gesture [(true, 0%Q); (true, 250%Q); (false, 250%Q)])
                     {| position := 2; preventClick := false; lastX := 0 |})
  = [SetPosition 2 1].
Proof. reflexivity. Qed.

(** ** Scenarios *)

Example scenario_A_transform :
  transX (getTransform (defaultProps (repeat tt 10)) 0) = 0%Q
  /\ transX (getTransform (defaultProps (repeat tt 10)) 3) = (40 * 1 + 20 * 3)%Q.
Proof. split; reflexivity. Qed.

Example scenario_D_side_click_disabled :
  let props := {| items := [10; 20; 30; 40; 50]%nat; sideItems := 3; startPosition := 1;
                  scale := 1; scaleRatio := 1; angle := 60; gap := 20; centreGap := 40;
                  perspective := 1000; depth := 200; itemClicked := true;
                  sideItemClicked := true; showReflections := true; dragThreshold := 100;
                  dragSpeed := 1 # 2; clickableSide := false |} in
  let clicked := {| keyed := {| item := 40%nat; key := 3 |}; index := 2 |} in
  In clicked (visibleItems props 1)
  /\ run props [Click clicked] (initialHooks props)
     = (tt, initialHooks props, [SideItemClicked 40%nat]).
Proof. split; [simpl; tauto|reflexivity]. Qed.

Example scenario_E_side_click_enabled :
  let props := {| items := [10; 20; 30; 40; 50]%nat; sideItems := 3; startPosition := 1;
                  scale := 1; scaleRatio := 1; angle := 60; gap := 20; centreGap := 40;
                  perspective := 1000; depth := 200; itemClicked := true;
                  sideItemClicked := true; showReflections := true; dragThreshold := 100;
                  dragSpeed := 1 # 2; clickableSide := true |} in
  let clicked := {| keyed := {| item := 10%nat; key := 0 |}; index := -1 |} in
  In clicked (visibleItems props 1)
  /\ run props [Click clicked] (initialHooks props)
     = (tt, {| position := 0; preventClick := false; lastX := 0 |},
        [SideItemClicked 10%nat; SetPosition 1 0]).
Proof. split; [simpl; tauto|reflexivity]. Qed.

(** The earlier variant of the click handler moves Position by the whole
    offset: a click on a visible item centres that item at once. *)
Lemma legacyHandleClick_jumps (T : Type) (props : CoverflowProps T)
      (h : Hooks) (clicked : ItemWithIndex T) :
  In clicked (visibleItems props (position h)) ->
  position (snd (fst (legacyHandleClick props clicked h))) = key clicked.
Proof.
  intros Hvis. destruct (visibleItems_sound _ _ _ _ Hvis) as (_ & _ & Hidx).
  unfold legacyHandleClick, bind, optCall, when, emit, ret, setPosition.
  destruct (index clicked =? 0), (itemClicked props), (sideItemClicked props);
    cbn [fst snd position]; lia.
Qed.

(** * Further properties of the component *)

(** ** Keys and the size of the window *)

Lemma zcount_NoDup n : forall lo, NoDup (zcount lo n).
Proof.
  induction n as [|n IH]; intros lo; [constructor|].
  cbn [zcount]. constructor; [|apply IH].
  rewrite zcount_In. lia.
Qed.

Lemma visibleItems_keys_any (T : Type) (props : CoverflowProps T) (p : Z) :
  exists lo n, map (fun it : ItemWithIndex T => key it) (visibleItems props p) = zcount lo n.
Proof.
  unfold visibleItems. rewrite withIndex_keys, withKeys_slice. cbv zeta.
  rewrite mapiFrom_keys. eauto.
Qed.

(** X1. Whatever the position and the side count, the keys handed to the
    transition are pairwise distinct, and a key names one list item for
    good: items visible at two positions under the same key are the same
    item of the list, the one at that index. *)
Theorem visibleItems_keys_identify (T : Type) (props : CoverflowProps T) (p : Z) :
  NoDup (map (fun it : ItemWithIndex T => key it) (visibleItems props p))
  /\ (forall (p' : Z) (it it' : ItemWithIndex T),
        In it (visibleItems props p) ->
        In it' (visibleItems props p') ->
        key it = key it' ->
        item it = item it'
        /\ nth_error (items props) (Z.to_nat (key it)) = Some (item it)).
Proof.
  split.
  - destruct (visibleItems_keys_any T props p) as (lo & n & ->). apply zcount_NoDup.
  - intros p' it it' Hin Hin' Hk.
    destruct (visibleItems_sound _ _ _ _ Hin) as (_ & Hn & _).
    destruct (visibleItems_sound _ _ _ _ Hin') as (_ & Hn' & _).
    rewrite <- Hk in Hn'. split; [congruence|exact Hn].
Qed.

Lemma visibleItems_length (T : Type) (props : CoverflowProps T) (p : Z) :
  0 <= sideItems props -> 0 <= p ->
  Z.of_nat (length (visibleItems props p))
  = Z.max 0 (Z.min (Z.of_nat (length (items props))) (p + sideItems props + 1)
             - Z.max 0 (p - sideItems props)).
Proof.
  intros Hs Hp.
  rewrite <- (length_map (fun it : ItemWithIndex T => key it)).
  rewrite (visibleItems_keys T props p Hs Hp). unfold zrange. rewrite zcount_length. lia.
Qed.

Lemma visibleItems_key_range (T : Type) (props : CoverflowProps T) (p : Z)
      (it : ItemWithIndex T) :
  0 <= sideItems props -> 0 <= p ->
  In it (visibleItems props p) ->
  Z.max 0 (p - sideItems props) <= key it
  < Z.min (Z.of_nat (length (items props))) (p + sideItems props + 1).
Proof.
  intros Hs Hp Hin. apply zrange_In. rewrite <- (visibleItems_keys T props p Hs Hp).
  apply (in_map (fun it : ItemWithIndex T => key it)). exact Hin.
Qed.

(** X2. For a position in bounds and sideItems s >= 0 the window holds
    min(N, p+s+1) - max(0, p-s) items: at least one, at most 2s+1 and at
    most N, and exactly 2s+1 when the position is at least s away from both
    ends of the list.  Every visible item's relative offset lies in
    [-s, s]. *)
Theorem visibleItems_size (T : Type) (props : CoverflowProps T) (p : Z) :
  0 <= sideItems props ->
  inBounds props p ->
  let N := Z.of_nat (length (items props)) in
  let s := sideItems props in
  let n := Z.of_nat (length (visibleItems props p)) in
  n = Z.min N (p + s + 1) - Z.max 0 (p - s)
  /\ 1 <= n <= 2 * s + 1
  /\ n <= N
  /\ (s <= p <= N - 1 - s -> n = 2 * s + 1)
  /\ (forall it : ItemWithIndex T, In it (visibleItems props p) -> - s <= index it <= s).
Proof.
  intros Hs Hp N s n. unfold inBounds in Hp. fold N in Hp.
  assert (Hn : n = Z.max 0 (Z.min N (p + s + 1) - Z.max 0 (p - s))).
  { apply visibleItems_length; lia. }
  split; [lia|]. split; [lia|]. split; [lia|]. split; [lia|].
  intros it Hin.
  destruct (visibleItems_sound _ _ _ _ Hin) as (_ & _ & Hidx).
  pose proof (visibleItems_key_range T props p it Hs (proj1 Hp) Hin) as Hk.
  fold s N in Hk. lia.
Qed.

Lemma visibleItems_size_witness :
  let props := defaultProps [10; 20; 30; 40; 50; 60; 70; 80; 90; 100]%nat in
  Z.of_nat (length (visibleItems props 1)) = 5
  /\ Z.of_nat (length (visibleItems props 5)) = 7.
Proof.
  intros props.
  assert (Hs : 0 <= sideItems props) by (simpl; lia).
  assert (H1 : inBounds props 1) by (unfold inBounds; simpl; lia).
  assert (H5 : inBounds props 5) by (unfold inBounds; simpl; lia).
  split.
  - destruct (visibleItems_size nat props 1 Hs H1) as (Hn & _). exact Hn.
  - destruct (visibleItems_size nat props 5 Hs H5) as (_ & _ & _ & Hfull & _).
    apply Hfull. simpl. lia.
Defined.

(** X3. Moving the position one place to the right changes the window by
    at most one item at each end: the only key that can leave is
    p - sideItems and the only key that can enter is p + sideItems + 1. *)
Theorem visibleItems_shift (T : Type) (props : CoverflowProps T) (p : Z) :
  0 <= sideItems props -> 0 <= p ->
  let keys := fun q => map (fun it : ItemWithIndex T => key it) (visibleItems props q) in
  (forall k, In k (keys p) -> In k (keys (p + 1)) \/ k = p - sideItems props)
  /\ (forall k, In k (keys (p + 1)) -> In k (keys p) \/ k = p + sideItems props + 1)
  /\ (forall k, In k (keys p) -> In k (keys (p + 1)) -> p + 1 - sideItems props <= k <= p + sideItems props).
Proof.
  intros Hs Hp keys. unfold keys.
  rewrite (visibleItems_keys T props p Hs Hp).
  rewrite (visibleItems_keys T props (p + 1) Hs ltac:(lia)).
  split; [|split]; intros k; rewrite !zrange_In; lia.
Qed.

Lemma visibleItems_shift_witness :
  let props := defaultProps [10; 20; 30; 40; 50; 60; 70; 80; 90; 100]%nat in
  map (fun it : ItemWithIndex nat => key it) (visibleItems props 4) = [1; 2; 3; 4; 5; 6; 7]
  /\ map (fun it : ItemWithIndex nat => key it) (visibleItems props 5) = [2; 3; 4; 5; 6; 7; 8]
  /\ (In 1 (map (fun it : ItemWithIndex nat => key it) (visibleItems props 4)) ->
      In 1 (map (fun it : ItemWithIndex nat => key it) (visibleItems props (4 + 1)))
      \/ 1 = 4 - sideItems props).
Proof.
  intros props.
  assert (Hs : 0 <= sideItems props) by (simpl; lia).
  assert (Hp : 0 <= 4) by lia.
  split; [reflexivity|]. split; [reflexivity|].
  destruct (visibleItems_shift nat props 4 Hs Hp) as (Hleave & _). apply Hleave.
Defined.

(** ** Clamping *)

(** X4. clampPosition is idempotent and monotone, and for a non-empty
    list its fixed points are exactly the positions in bounds. *)
Theorem clampPosition_projection (T : Type) (props : CoverflowProps T) :
  (forall n, clampPosition props (clampPosition props n) = clampPosition props n)
  /\ (forall n m, n <= m -> clampPosition props n <= clampPosition props m)
  /\ (1 <= Z.of_nat (length (items props)) ->
      forall n, clampPosition props n = n <-> inBounds props n)
  /\ (forall n, Z.abs (clampPosition props n - clampPosition props (n + 1)) <= 1).
Proof.
  unfold clampPosition, inBounds. repeat split; intros; lia.
Qed.

(** ** Layout *)

Lemma transX_formula (T : Type) (props : CoverflowProps T) (k : Z) :
  (transX (getTransform props k)
   == centreGap props * inject_Z (Z.sgn k) + gap props * inject_Z k)%Q.
Proof.
  destruct k as [|q|q]; cbn [getTransform transX Z.eqb Z.sgn].
  - change (inject_Z 0) with 0%Q. ring.
  - reflexivity.
  - reflexivity.
Qed.

(** X5. The horizontal translation is mirror symmetric: the item at
    offset -k is moved as far to the left as the item at offset k is moved
    to the right. *)
Theorem transX_mirror (T : Type) (props : CoverflowProps T) (k : Z) :
  (transX (getTransform props (- k)) == - transX (getTransform props k))%Q.
Proof.
  rewrite !transX_formula, Z.sgn_opp, !inject_Z_opp. ring.
Qed.

(** X6. With a positive gap and a non-negative centreGap the layout
    never reverses the list order: a larger relative offset never gets a
    smaller horizontal translation, every item after the centre is moved
    to the right of it and every item before the centre to the left. *)
Theorem transX_layout (T : Type) (props : CoverflowProps T) :
  (0 < gap props)%Q -> (0 <= centreGap props)%Q ->
  (forall k1 k2 : Z,
      k1 <= k2 -> (transX (getTransform props k1) <= transX (getTransform props k2))%Q)
  /\ (forall k : Z, 0 < k -> (0 < transX (getTransform props k))%Q)
  /\ (forall k : Z, k < 0 -> (transX (getTransform props k) < 0)%Q)
  /\ (transX (getTransform props 0) == 0)%Q.
Proof.
  intros Hgap Hcentre. split; [|split; [|split]].
  - intros k1 k2 Hle. rewrite !transX_formula.
    assert (Hk : (inject_Z k1 <= inject_Z k2)%Q) by (rewrite <- Zle_Qle; exact Hle).
    assert (Hs : (inject_Z (Z.sgn k1) <= inject_Z (Z.sgn k2))%Q) by (rewrite <- Zle_Qle; lia).
    nra.
  - intros k Hk. rewrite transX_formula.
    replace (Z.sgn k) with 1 by lia. change (inject_Z 1) with 1%Q.
    assert (Hq : (1 <= inject_Z k)%Q).
    { change 1%Q with (inject_Z 1). rewrite <- Zle_Qle. lia. }
    nra.
  - intros k Hk. rewrite transX_formula.
    replace (Z.sgn k) with (-1) by lia. change (inject_Z (-1)) with (-1)%Q.
    assert (Hq : (inject_Z k <= -1)%Q).
    { change (-1)%Q with (inject_Z (-1)). rewrite <- Zle_Qle. lia. }
    nra.
  - reflexivity.
Qed.

Lemma transX_layout_witness :
  let props := defaultProps (@nil unit) in
  (transX (getTransform props (-2)) <= transX (getTransform props 1))%Q
  /\ (0 < transX (getTransform props 3))%Q
  /\ (transX (getTransform props (-1)) < 0)%Q.
Proof.
  intros props.
  assert (Hgap : (0 < gap props)%Q) by reflexivity.
  assert (Hcentre : (0 <= centreGap props)%Q) by (cbn; discriminate).
  destruct (transX_layout unit props Hgap Hcentre) as (Hmono & Hright & Hleft & _).
  split; [apply Hmono; lia|]. split; [apply Hright; lia|apply Hleft; lia].
Defined.

(** X7. Stacking of the window: for a position in bounds and
    sideItems s >= 0 every visible item gets a zIndex between 100 - s and
    100, the item at the centre is the only one with zIndex 100, and of two
    visible items the one nearer the centre has the larger zIndex. *)
Theorem visible_stacking (T : Type) (props : CoverflowProps T) (p : Z) :
  0 <= sideItems props ->
  inBounds props p ->
  (forall it : ItemWithIndex T,
      In it (visibleItems props p) ->
      100 - sideItems props <= getZIndex (index it) <= 100
      /\ (getZIndex (index it) = 100 <-> key it = p))
  /\ (forall a b : ItemWithIndex T,
        In a (visibleItems props p) -> In b (visibleItems props p) ->
        (Z.abs (key a - p) < Z.abs (key b - p)
         <-> getZIndex (index b) < getZIndex (index a))).
Proof.
  intros Hs Hp. split.
  - intros it Hin.
    destruct (visibleItems_sound _ _ _ _ Hin) as (_ & _ & Hidx).
    pose proof (visibleItems_key_range T props p it Hs (proj1 Hp) Hin) as Hk.
    unfold getZIndex. lia.
  - intros a b Ha Hb.
    destruct (visibleItems_sound _ _ _ _ Ha) as (_ & _ & Hia).
    destruct (visibleItems_sound _ _ _ _ Hb) as (_ & _ & Hib).
    unfold getZIndex. lia.
Qed.

Lemma visible_stacking_witness :
  let props := defaultProps [10; 20; 30; 40; 50]%nat in
  let it := rendered 40%nat 3 2 in
  In it (visibleItems props 2)
  /\ 100 - sideItems props <= getZIndex (index it) <= 100.
Proof.
  intros props it.
  assert (Hs : 0 <= sideItems props) by (simpl; lia).
  assert (Hp : inBounds props 2) by (unfold inBounds; simpl; lia).
  assert (Hin : In it (visibleItems props 2)) by (simpl; tauto).
  split; [exact Hin|].
  destruct (visible_stacking nat props 2 Hs Hp) as (Hz & _).
  destruct (Hz it Hin) as (Hrange & _). exact Hrange.
Defined.

(** ** The earlier variant of the component *)

(** X8. The earlier variant, which normalises the offset by dividing it
    by its absolute value, turns, scales and pushes back every item exactly
    as the variant written with Math.sign: rotation, scale, translateZ and
    perspective are the same at every offset and for every configuration.
    (The horizontal translation is not compared: there the earlier variant
    divides the product centreGap * index, which gives the same number only
    when nothing is rounded.) *)
Theorem legacyGetTransform_agrees (T : Type) (props : CoverflowProps T) (k : Z) :
  (rotation (legacyGetTransform props k) == rotation (getTransform props k))%Q
  /\ scaleXY (legacyGetTransform props k) = scaleXY (getTransform props k)
  /\ transZ (legacyGetTransform props k) = transZ (getTransform props k)
  /\ t_perspective (legacyGetTransform props k) = t_perspective (getTransform props k).
Proof.
  assert (Hunit : (inject_Z k / inject_Z (Z.abs k) == inject_Z (Z.sgn k))%Q).
  { destruct k as [|q|q]; cbn [Z.abs Z.sgn].
    - reflexivity.
    - assert (Hq : ~ (inject_Z (Z.pos q) == 0)%Q).
      { change 0%Q with (inject_Z 0). rewrite inject_Z_injective. lia. }
      change (inject_Z 1) with 1%Q. field. exact Hq.
    - assert (Hq : ~ (inject_Z (Z.pos q) == 0)%Q).
      { change 0%Q with (inject_Z 0). rewrite inject_Z_injective. lia. }
      change (inject_Z (Z.neg q)) with (- inject_Z (Z.pos q))%Q.
      change (inject_Z (-1)) with (-1)%Q. field. exact Hq. }
  split; [|repeat split].
  destruct (Z.eqb_spec k 0) as [->|Hk]; [reflexivity|].
  apply Z.eqb_neq in Hk. cbn [legacyGetTransform getTransform rotation]. rewrite Hk.
  rewrite Hunit, inject_Z_opp. reflexivity.
Qed.

Lemma visibleItems_complete (T : Type) (props : CoverflowProps T) (p k : Z) (x : T) :
  0 <= sideItems props -> 0 <= p ->
  nth_error (items props) (Z.to_nat k) = Some x ->
  Z.max 0 (p - sideItems props) <= k <= p + sideItems props ->
  In (rendered x k p) (visibleItems props p).
Proof.
  intros Hs Hp Hx Hk.
  assert (HkN : k < Z.of_nat (length (items props))).
  { assert (Z.to_nat k < length (items props))%nat by (apply nth_error_Some; congruence). lia. }
  assert (Hin : In k (map (fun it : ItemWithIndex T => key it) (visibleItems props p))).
  { rewrite (visibleItems_keys T props p Hs Hp). apply zrange_In. lia. }
  apply in_map_iff in Hin. destruct Hin as (it & Hkey & Hin).
  destruct (visibleItems_sound _ _ _ _ Hin) as (_ & Hnth & Hidx).
  destruct it as [[i kk] idx]. cbn [keyed key item index] in *. subst kk idx.
  assert (i = x) by congruence. subst i. exact Hin.
Qed.



(** ** Gestures *)

Section Drags.

Variable T : Type.
Variable props : CoverflowProps T.

Lemma notifications_app (a b : list (Effect T)) :
  notifications (a ++ b) = notifications a ++ notifications b.
Proof. apply filter_app. Qed.

Lemma followOffsets_app (a b : list (Effect T)) :
  followOffsets (a ++ b) = followOffsets a ++ followOffsets b.
Proof. apply flat_map_app. Qed.

(** What one drag sample does, in one statement. *)
Lemma onDrag_step (first active : bool) (mx : Q) (h : Hooks) :
  let newX := (mx - baseline first h)%Q in
  let follow := (if active then newX * dragSpeed props else 0)%Q in
  (JS.Qgtb (Qabs newX) (dragThreshold props) = true
   /\ hooksAfter props [Drag first active mx] h
      = {| position := clampPosition props (position h - JS.Qsign newX);
           preventClick := true; lastX := mx |}
   /\ effectsOf props [Drag first active mx] h
      = [SpringsStart follow 0;
         SetPosition (position h) (clampPosition props (position h - JS.Qsign newX))])
  \/ (JS.Qgtb (Qabs newX) (dragThreshold props) = false
      /\ hooksAfter props [Drag first active mx] h
         = {| position := position h; preventClick := preventClick h;
              lastX := baseline first h |}
      /\ effectsOf props [Drag first active mx] h = [SpringsStart follow 0]).
Proof.
  intros newX follow. rewrite hooksAfter_one, effectsOf_one. cbn [handle].
  destruct (JS.Qgtb (Qabs newX) (dragThreshold props)) eqn:E; [left|right].
  - rewrite (onDrag_commit _ props first active mx h E). repeat split.
  - rewrite (onDrag_follow _ props first active mx h E). repeat split.
Qed.

Lemma click_effects_ext (clicked : ItemWithIndex T) (h1 h2 : Hooks) :
  position h1 = position h2 -> preventClick h1 = preventClick h2 ->
  effectsOf props [Click clicked] h1 = effectsOf props [Click clicked] h2
  /\ position (hooksAfter props [Click clicked] h1)
     = position (hooksAfter props [Click clicked] h2).
Proof.
  intros Hp Hf. rewrite !hooksAfter_one, !effectsOf_one. cbn [handle].
  destruct h1 as [p1 f1 l1], h2 as [p2 f2 l2]. cbn [position preventClick] in Hp, Hf.
  subst p2 f2.
  unfold handleClick, bind, getPreventClick, setPreventClick, optCall, when, emit, ret,
    setPosition.
  cbn [position preventClick lastX].
  destruct f1, (index clicked =? 0), (itemClicked props), (sideItemClicked props),
    (clickableSide props); split; reflexivity.
Qed.

Lemma continued_quiet (samples : list (bool * Q)) : forall h,
  lastX h = 0%Q ->
  Forall (fun s => (Qabs (snd s) <= dragThreshold props)%Q) samples ->
  hooksAfter props (continued samples) h = h
  /\ commits (effectsOf props (continued samples) h) = []
  /\ notifications (effectsOf props (continued samples) h) = [].
Proof.
  induction samples as [|[a mx] rest IH]; intros h Hl Hall; [repeat split|].
  inversion Hall as [|? ? Hmx Hrest]; subst. cbn [snd] in Hmx.
  cbn [continued map fst snd]. fold (continued (T := T) rest).
  rewrite hooksAfter_cons, effectsOf_cons, commits_app, notifications_app.
  destruct (onDrag_step false a mx h) as [(E & _) | (E & Hh & He)].
  - exfalso. apply Qgtb_true in E. cbn [baseline] in E. rewrite Hl in E.
    assert (Hz : (mx - 0 == mx)%Q) by ring. rewrite Hz in E.
    apply (Qlt_not_le _ _ E Hmx).
  - assert (Hsame : hooksAfter props [Drag false a mx] h = h).
    { rewrite Hh. destruct h. reflexivity. }
    rewrite Hsame, He. destruct (IH h Hl Hrest) as (IHh & IHc & IHn).
    rewrite IHh, IHc, IHn. repeat split.
Qed.

End Drags.

(** X10. A gesture none of whose samples is further than dragThreshold
    from its start changes nothing but the follow offset: no setPosition
    call, no callback call, Position and the suppression flag as before,
    so that the click that follows is dispatched as if there had been no
    drag. *)
Theorem small_drag_is_inert (T : Type) (props : CoverflowProps T)
        (samples : list (bool * Q)) (h : Hooks) :
  Forall (fun s => (Qabs (snd s) <= dragThreshold props)%Q) samples ->
  let h' := hooksAfter props (gesture samples) h in
  position h' = position h
  /\ preventClick h' = preventClick h
  /\ commits (effectsOf props (gesture samples) h) = []
  /\ notifications (effectsOf props (gesture samples) h) = []
  /\ (forall clicked : ItemWithIndex T,
        effectsOf props [Click clicked] h' = effectsOf props [Click clicked] h
        /\ position (hooksAfter props [Click clicked] h')
           = position (hooksAfter props [Click clicked] h)).
Proof.
  intros Hall h'.
  assert (Main : position h' = position h /\ preventClick h' = preventClick h
                 /\ commits (effectsOf props (gesture samples) h) = []
                 /\ notifications (effectsOf props (gesture samples) h) = []).
  { unfold h'. destruct samples as [|[a mx] rest]; [repeat split|].
    inversion Hall as [|? ? Hmx Hrest]; subst. cbn [snd] in Hmx.
    cbn [gesture].
    rewrite hooksAfter_cons, effectsOf_cons, commits_app, notifications_app.
    destruct (onDrag_step T props true a mx h) as [(E & _) | (E & Hh & He)].
    - exfalso. apply Qgtb_true in E. cbn [baseline] in E.
      assert (Hz : (mx - 0 == mx)%Q) by ring. rewrite Hz in E.
      apply (Qlt_not_le _ _ E Hmx).
    - rewrite Hh, He. cbn [baseline].
      destruct (continued_quiet T props rest
                  {| position := position h; preventClick := preventClick h; lastX := 0 |}
                  eq_refl Hrest) as (IHh & IHc & IHn).
      rewrite IHh, IHc, IHn. repeat split. }
  destruct Main as (Hp & Hf & Hc & Hn).
  split; [exact Hp|]. split; [exact Hf|]. split; [exact Hc|]. split; [exact Hn|].
  intros clicked. now apply click_effects_ext.
Qed.

Lemma small_drag_is_inert_witness :
  let props := defaultProps [10; 20; 30]%nat in
  let h := initialHooks props in
  let samples := [(true, 0%Q); (true, 60%Q); (true, (-100)%Q); (false, 30%Q)] in
  position (hooksAfter props (gesture samples) h) = position h
  /\ preventClick (hooksAfter props (gesture samples) h) = false
  /\ commits (effectsOf props (gesture samples) h) = [].
Proof.
  intros props h samples.
  assert (Hall : Forall (fun s => (Qabs (snd s) <= dragThreshold props)%Q) samples).
  { repeat constructor; cbn; discriminate. }
  destruct (small_drag_is_inert nat props samples h Hall) as (Hp & Hf & Hc & _).
  split; [exact Hp|]. split; [exact Hf|exact Hc].
Defined.

(** The suppression flag along a run of drag samples. *)
Lemma drags_flag (T : Type) (props : CoverflowProps T)
        (es : list (Event T)) (h : Hooks) :
  forallb isDragSample es = true ->
  (commits (effectsOf props es h) = [] ->
   preventClick (hooksAfter props es h) = preventClick h
   /\ position (hooksAfter props es h) = position h)
  /\ (commits (effectsOf props es h) <> [] -> preventClick (hooksAfter props es h) = true)
  /\ (preventClick h = true -> preventClick (hooksAfter props es h) = true)
  /\ notifications (effectsOf props es h) = [].
Proof.
  revert h. induction es as [|e es IH]; intros h Hd.
  - split; [intros _; split; reflexivity|]. split; [intros Hc; now elim Hc|].
    split; [intros Hf; exact Hf|reflexivity].
  - cbn [forallb] in Hd. apply andb_true_iff in Hd. destruct Hd as [He Hd].
    destruct e as [first active mx|clicked]; [|discriminate].
    rewrite hooksAfter_cons, effectsOf_cons, commits_app, notifications_app.
    destruct (IH (hooksAfter props [Drag first active mx] h) Hd) as (IH0 & IH1 & IH2 & IHn).
    rewrite IHn.
    destruct (onDrag_step T props first active mx h) as [(E & Hh & Heff) | (E & Hh & Heff)];
      rewrite Heff; rewrite Hh in IH0, IH1, IH2; rewrite Hh;
      cbn [commits filter isSetPosition app notifications isNotification
           position preventClick] in *.
    + split; [intros Hc; discriminate|]. split; [intros _; now apply IH2|].
      split; [intros _; now apply IH2|reflexivity].
    + split; [exact IH0|]. split; [exact IH1|]. split; [exact IH2|reflexivity].
Qed.

(** X11. Drag samples never clear the suppression flag: after any
    sequence of drag samples, over any number of gestures, the flag is set
    if one of the samples committed and is otherwise what it was.  Only a
    click clears it, so a flag set by a drag waits for the next click
    however late it comes. *)
Theorem drags_keep_suppression (T : Type) (props : CoverflowProps T)
        (es : list (Event T)) (h : Hooks) :
  forallb isDragSample es = true ->
  (commits (effectsOf props es h) = [] ->
   preventClick (hooksAfter props es h) = preventClick h
   /\ position (hooksAfter props es h) = position h)
  /\ (commits (effectsOf props es h) <> [] -> preventClick (hooksAfter props es h) = true)
  /\ (preventClick h = true -> preventClick (hooksAfter props es h) = true)
  /\ notifications (effectsOf props es h) = [].
Proof. exact (drags_flag T props es h). Qed.

Lemma drags_keep_suppression_witness :
  let props := defaultProps [10; 20; 30]%nat in
  let h := {| position := 1; preventClick := false; lastX := 0 |} in
  let es := gesture [(true, 0%Q); (true, 120%Q); (false, 120%Q)]
            ++ gesture [(true, 0%Q); (true, 30%Q); (false, 30%Q)] in
  commits (effectsOf props es h) = [SetPosition 1 0]
  /\ preventClick (hooksAfter props es h) = true.
Proof.
  intros props h es.
  assert (Hd : forallb isDragSample es = true) by reflexivity.
  assert (Hc : commits (effectsOf props es h) = [SetPosition 1 0]) by reflexivity.
  split; [exact Hc|].
  destruct (drags_keep_suppression nat props es h Hd) as (_ & Hset & _).
  apply Hset. rewrite Hc. discriminate.
Defined.

(** X12. The drag baseline does not survive a gesture: whatever baseline
    an earlier gesture left behind, a new gesture makes the same
    setPosition and springs calls and ends at the same Position and
    baseline, because its first sample resets the baseline to 0. *)
Theorem gesture_forgets_baseline (T : Type) (props : CoverflowProps T)
        (samples : list (bool * Q)) (h : Hooks) (stale : Q) :
  samples <> [] ->
  let h0 := {| position := position h; preventClick := preventClick h; lastX := stale |} in
  effectsOf props (gesture samples) h0 = effectsOf props (gesture samples) h
  /\ hooksAfter props (gesture samples) h0 = hooksAfter props (gesture samples) h.
Proof.
  intros Hne h0. destruct samples as [|[a mx] rest]; [now elim Hne|].
  cbn [gesture].
  rewrite (hooksAfter_cons _ props _ _ h0), (hooksAfter_cons _ props _ _ h).
  rewrite (effectsOf_cons _ props _ _ h0), (effectsOf_cons _ props _ _ h).
  rewrite !hooksAfter_one, !effectsOf_one. cbn [handle].
  assert (Step : onDrag props true a mx h0 = onDrag props true a mx h).
  { unfold h0. destruct h as [p f l]. reflexivity. }
  rewrite Step. split; reflexivity.
Qed.

Lemma gesture_forgets_baseline_witness :
  let props := defaultProps [10; 20; 30]%nat in
  let h := {| position := 2; preventClick := false; lastX := 0 |} in
  let samples := [(true, 0%Q); (true, 150%Q)] in
  effectsOf props (gesture samples)
            {| position := position h; preventClick := preventClick h; lastX := 999 |}
  = effectsOf props (gesture samples) h.
Proof.
  intros props h samples.
  assert (Hne : samples <> []) by discriminate.
  destruct (gesture_forgets_baseline nat props samples h 999 Hne) as [He _]. exact He.
Defined.

(** X13. While a sequence of drag samples commits nothing, every follow
    offset handed to the springs is at most dragThreshold * abs(dragSpeed)
    in absolute value: the items never follow the pointer further than
    that without a change of Position. *)
Theorem follow_offset_bounded (T : Type) (props : CoverflowProps T)
        (es : list (Event T)) (h : Hooks) :
  forallb isDragSample es = true ->
  commits (effectsOf props es h) = [] ->
  Forall (fun x => (Qabs x <= dragThreshold props * Qabs (dragSpeed props))%Q)
         (followOffsets (effectsOf props es h)).
Proof.
  revert h. induction es as [|e es IH]; intros h Hd Hc; [constructor|].
  cbn [forallb] in Hd. apply andb_true_iff in Hd. destruct Hd as [He Hd].
  destruct e as [first active mx|clicked]; [|discriminate].
  rewrite effectsOf_cons, commits_app in Hc. apply app_eq_nil in Hc. destruct Hc as [Hc1 Hc2].
  rewrite effectsOf_cons, followOffsets_app. apply Forall_app. split; [|now apply IH].
  destruct (onDrag_step T props first active mx h) as [(E & _ & Heff) | (E & _ & Heff)];
    rewrite Heff in Hc1 |- *; [discriminate|].
  cbn [followOffsets flat_map app]. constructor; [|constructor].
  apply Qgtb_false in E.
  pose proof (Qabs_nonneg (dragSpeed props)) as Hs.
  pose proof (Qabs_nonneg (mx - baseline first h)) as Hx.
  destruct active.
  - rewrite Qabs_Qmult. nra.
  - change (Qabs 0) with 0%Q. nra.
Qed.

Lemma follow_offset_bounded_witness :
  let props := defaultProps [10; 20; 30]%nat in
  let h := initialHooks props in
  let es := gesture [(true, 0%Q); (true, 80%Q); (true, (-40)%Q); (false, (-40)%Q)] in
  followOffsets (effectsOf props es h) = [0 * (1 # 2); 80 * (1 # 2); (-40) * (1 # 2); 0]%Q
  /\ Forall (fun x => (Qabs x <= dragThreshold props * Qabs (dragSpeed props))%Q)
            (followOffsets (effectsOf props es h)).
Proof.
  intros props h es.
  assert (Hd : forallb isDragSample es = true) by reflexivity.
  assert (Hc : commits (effectsOf props es h) = []) by reflexivity.
  split; [vm_compute; reflexivity|].
  apply (follow_offset_bounded nat props es h Hd Hc).
Defined.

(** X14. Who calls what: along any run every drag sample makes exactly
    one call to the springs and a click makes none; a drag sample never
    calls a callback and a click calls at most one; and no event makes
    more than one setPosition call. *)
Theorem effects_accounting (T : Type) (props : CoverflowProps T)
        (es : list (Event T)) (h : Hooks) :
  length (followOffsets (effectsOf props es h)) = length (filter isDragSample es)
  /\ (length (notifications (effectsOf props es h)) <= length (filter isClick es))%nat
  /\ (length (commits (effectsOf props es h)) <= length es)%nat.
Proof.
  revert h. induction es as [|e es IH]; intros h; [repeat split; constructor|].
  destruct (IH (hooksAfter props [e] h)) as (IHf & IHn & IHc).
  rewrite effectsOf_cons, followOffsets_app, notifications_app, commits_app, !length_app.
  assert (Step : length (followOffsets (effectsOf props [e] h))
                 = (if isDragSample e then 1 else 0)%nat
                 /\ (length (notifications (effectsOf props [e] h))
                     <= if isClick e then 1 else 0)%nat
                 /\ (length (commits (effectsOf props [e] h)) <= 1)%nat).
  { destruct e as [first active mx|clicked]; cbn [isDragSample isClick].
    - destruct (onDrag_step T props first active mx h) as [(_ & _ & Heff) | (_ & _ & Heff)];
        rewrite Heff; cbn; repeat split; lia.
    - rewrite effectsOf_one. cbn [handle].
      destruct (preventClick h) eqn:Hp.
      + rewrite (handleClick_prevented _ props clicked h Hp). cbn. repeat split; lia.
      + destruct (Z.eq_dec (index clicked) 0) as [Hz|Hnz].
        * rewrite (handleClick_centre _ props clicked h Hp Hz).
          destruct (itemClicked props); cbn; repeat split; lia.
        * rewrite (handleClick_side _ props clicked h Hp Hnz).
          destruct (sideItemClicked props), (clickableSide props); cbn; repeat split; lia. }
  destruct Step as (Sf & Sn & Sc).
  cbn [filter length]. destruct e as [first active mx|clicked];
    cbn [isDragSample isClick length] in *; repeat split; lia.
Qed.

(** X15. One place at a time: along any run that starts in bounds on a
    non-empty list, with clicks on visible items, every setPosition call
    starts from a position in bounds and moves it by at most one place. *)
Theorem position_moves_one_place (T : Type) (props : CoverflowProps T)
        (es : list (Event T)) (h : Hooks) :
  1 <= Z.of_nat (length (items props)) ->
  inBounds props (position h) ->
  clicksVisible props es h ->
  Forall (stepsByOne props) (effectsOf props es h)
  /\ Z.abs (position (hooksAfter props es h) - position h)
     <= Z.of_nat (length (commits (effectsOf props es h))).
Proof.
  intros HN. revert h. induction es as [|e es IH]; intros h Hin Hvis.
  - split; [constructor|]. cbn. lia.
  - apply clicksVisible_cons in Hvis. destruct Hvis as [Hv1 Hv2].
    destruct (handle_in_bounds _ props e h HN Hin Hv1) as [Hin1 _].
    destruct (IH _ Hin1 Hv2) as [IHs IHd].
    rewrite hooksAfter_cons, effectsOf_cons, commits_app, length_app.
    assert (Step : Forall (stepsByOne props) (effectsOf props [e] h)
                   /\ Z.abs (position (hooksAfter props [e] h) - position h)
                      <= Z.of_nat (length (commits (effectsOf props [e] h)))).
    { destruct e as [first active mx|clicked].
      - destruct (onDrag_step T props first active mx h) as [(E & Hh & Heff) | (E & Hh & Heff)];
          rewrite Hh, Heff; cbn [position commits filter isSetPosition length].
        + assert (Hsign : -1 <= JS.Qsign (mx - baseline first h) <= 1).
          { unfold JS.Qsign. lia. }
          assert (Hstep : Z.abs (clampPosition props
                                   (position h - JS.Qsign (mx - baseline first h))
                                 - position h) <= 1).
          { unfold clampPosition, inBounds in *. lia. }
          split; [|lia].
          constructor; [exact I|]. constructor; [|constructor]. split; assumption.
        + split; [constructor; [exact I|constructor]|lia].
      - rewrite hooksAfter_one, effectsOf_one. cbn [handle].
        destruct (preventClick h) eqn:Hp.
        + rewrite (handleClick_prevented _ props clicked h Hp). cbn. split; [constructor|lia].
        + destruct (Z.eq_dec (index clicked) 0) as [Hz|Hnz].
          * rewrite (handleClick_centre _ props clicked h Hp Hz). cbn [fst snd].
            split; [|destruct (itemClicked props); cbn; lia].
            destruct (itemClicked props); [constructor; [exact I|constructor]|constructor].
          * rewrite (handleClick_side _ props clicked h Hp Hnz). cbn [fst snd].
            split.
            { apply Forall_app. split.
              - destruct (sideItemClicked props);
                  [constructor; [exact I|constructor]|constructor].
              - destruct (clickableSide props); [|constructor].
                constructor; [|constructor]. split; [exact Hin|lia]. }
            rewrite commits_app, length_app.
            destruct (sideItemClicked props), (clickableSide props);
              cbn [commits filter isSetPosition length position]; lia. }
    destruct Step as [Ss Sd]. split; [apply Forall_app; now split|lia].
Qed.

Lemma position_moves_one_place_witness :
  let props := {| items := [10; 20; 30; 40; 50]%nat; sideItems := 3; startPosition := 2;
                  scale := 1; scaleRatio := 1; angle := 60; gap := 20; centreGap := 40;
                  perspective := 1000; depth := 200; itemClicked := true;
                  sideItemClicked := true; showReflections := true; dragThreshold := 100;
                  dragSpeed := 1 # 2; clickableSide := true |} in
  let h := initialHooks props in
  let es := [Drag true true 0; Drag false true 130; Click (rendered 50%nat 4 1);
             Click (rendered 50%nat 4 1)] in
  commits (effectsOf props es h) = [SetPosition 2 1; SetPosition 1 2]
  /\ Forall (stepsByOne props) (effectsOf props es h).
Proof.
  intros props h es.
  assert (HN : 1 <= Z.of_nat (length (items props))) by (simpl; lia).
  assert (Hin : inBounds props (position h)) by (unfold inBounds, h; cbn; lia).
  assert (Hvis : clicksVisible props es h) by (simpl; tauto).
  split; [reflexivity|].
  destruct (position_moves_one_place nat props es h HN Hin Hvis) as [Hs _]. exact Hs.
Defined.

(** ** Clicks and the list *)

(** X16. A click that is not suppressed reports the list item itself:
    the value passed to the callback is the item of the list at the
    clicked element's key, and the callback is itemClicked exactly when
    that key is the current Position, so itemClicked always receives the
    item at index Position. *)
Theorem click_reports_list_item (T : Type) (props : CoverflowProps T)
        (h : Hooks) (clicked : ItemWithIndex T) :
  In clicked (visibleItems props (position h)) ->
  preventClick h = false ->
  itemClicked props = true ->
  sideItemClicked props = true ->
  nth_error (items props) (Z.to_nat (key clicked)) = Some (item clicked)
  /\ notifications (effectsOf props [Click clicked] h)
     = [if key clicked =? position h
        then ItemClicked (item clicked)
        else SideItemClicked (item clicked)]
  /\ (key clicked = position h ->
      nth_error (items props) (Z.to_nat (position h)) = Some (item clicked)
      /\ hooksAfter props [Click clicked] h = h).
Proof.
  intros Hvis Hflag Hic Hsc.
  destruct (visibleItems_sound _ _ _ _ Hvis) as (_ & Hnth & Hidx).
  rewrite hooksAfter_one, effectsOf_one. cbn [handle].
  split; [exact Hnth|]. split.
  - destruct (Z.eqb_spec (key clicked) (position h)) as [Heq|Hne].
    + rewrite (handleClick_centre _ props clicked h Hflag ltac:(lia)), Hic. reflexivity.
    + rewrite (handleClick_side _ props clicked h Hflag ltac:(lia)), Hsc.
      destruct (clickableSide props); reflexivity.
  - intros Heq. rewrite <- Heq. split; [exact Hnth|].
    rewrite (handleClick_centre _ props clicked h Hflag ltac:(lia)). reflexivity.
Qed.

Lemma click_reports_list_item_witness :
  let props := {| items := [10; 20; 30; 40; 50]%nat; sideItems := 3; startPosition := 2;
                  scale := 1; scaleRatio := 1; angle := 60; gap := 20; centreGap := 40;
                  perspective := 1000; depth := 200; itemClicked := true;
                  sideItemClicked := true; showReflections := true; dragThreshold := 100;
                  dragSpeed := 1 # 2; clickableSide := true |} in
  let h := initialHooks props in
  notifications (effectsOf props [Click (rendered 30%nat 2 2)] h) = [ItemClicked 30%nat].
Proof.
  intros props h.
  assert (Hvis : In (rendered 30%nat 2 2) (visibleItems props (position h))) by (simpl; tauto).
  destruct (click_reports_list_item nat props h (rendered 30%nat 2 2) Hvis
              eq_refl eq_refl eq_refl) as (_ & Hn & _).
  exact Hn.
Defined.




(** X18. Without a drag no click is ever lost: from a state with the
    suppression flag unset, a run of clicks alone keeps the flag unset,
    and when both callbacks are supplied every click calls exactly one of
    them. *)
Theorem clicks_alone_all_dispatched (T : Type) (props : CoverflowProps T)
        (es : list (Event T)) (h : Hooks) :
  forallb isClick es = true ->
  preventClick h = false ->
  preventClick (hooksAfter props es h) = false
  /\ (itemClicked props = true -> sideItemClicked props = true ->
      length (notifications (effectsOf props es h)) = length es).
Proof.
  revert h. induction es as [|e es IH]; intros h Hc Hf.
  - split; [exact Hf|]. intros _ _. reflexivity.
  - cbn [forallb] in Hc. apply andb_true_iff in Hc. destruct Hc as [He Hc].
    destruct e as [first active mx|clicked]; [discriminate|].
    assert (Step : preventClick (hooksAfter props [Click clicked] h) = false
                   /\ (itemClicked props = true -> sideItemClicked props = true ->
                       length (notifications (effectsOf props [Click clicked] h)) = 1%nat)).
    { rewrite hooksAfter_one, effectsOf_one. cbn [handle].
      destruct (Z.eq_dec (index clicked) 0) as [Hz|Hnz].
      - rewrite (handleClick_centre _ props clicked h Hf Hz). cbn [fst snd].
        split; [exact Hf|]. intros -> _. reflexivity.
      - rewrite (handleClick_side _ props clicked h Hf Hnz). cbn [fst snd].
        split; [destruct (clickableSide props); exact Hf|].
        intros _ ->. destruct (clickableSide props); reflexivity. }
    destruct Step as [Sf Sn]. destruct (IH _ Hc Sf) as (IHf & IHn).
    rewrite hooksAfter_cons, effectsOf_cons, notifications_app, length_app.
    split; [exact IHf|].
    intros Hic Hsc. rewrite (Sn Hic Hsc), (IHn Hic Hsc). reflexivity.
Qed.

Lemma clicks_alone_all_dispatched_witness :
  let props := {| items := [10; 20; 30; 40; 50]%nat; sideItems := 3; startPosition := 2;
                  scale := 1; scaleRatio := 1; angle := 60; gap := 20; centreGap := 40;
                  perspective := 1000; depth := 200; itemClicked := true;
                  sideItemClicked := true; showReflections := true; dragThreshold := 100;
                  dragSpeed := 1 # 2; clickableSide := true |} in
  let h := initialHooks props in
  let es := [Click (rendered 30%nat 2 2); Click (rendered 40%nat 3 2);
             Click (rendered 40%nat 3 3)] in
  notifications (effectsOf props es h)
  = [ItemClicked 30%nat; SideItemClicked 40%nat; ItemClicked 40%nat]
  /\ length (notifications (effectsOf props es h)) = length es.
Proof.
  intros props h es.
  assert (Hc : forallb isClick es = true) by reflexivity.
  assert (Hf : preventClick h = false) by reflexivity.
  split; [reflexivity|].
  destruct (clicks_alone_all_dispatched nat props es h Hc Hf) as (_ & Hn).
  apply Hn; reflexivity.
Defined.

(** ** Left and right *)

Lemma Qsign_wd (x y : Q) : (x == y)%Q -> JS.Qsign x = JS.Qsign y.
Proof.
  unfold Qeq, JS.Qsign. intros H.
  assert (Hx : Z.sgn (Qnum x * Z.pos (Qden y)) = Z.sgn (Qnum x)).
  { rewrite Z.sgn_mul. cbn [Z.sgn]. lia. }
  assert (Hy : Z.sgn (Qnum y * Z.pos (Qden x)) = Z.sgn (Qnum y)).
  { rewrite Z.sgn_mul. cbn [Z.sgn]. lia. }
  rewrite <- Hx, <- Hy, H. reflexivity.
Qed.

Lemma Qsign_opp (x : Q) : JS.Qsign (- x) = - JS.Qsign x.
Proof. unfold JS.Qsign. destruct x as [n d]. cbn [Qopp Qnum]. apply Z.sgn_opp. Qed.

Lemma Qgtb_wd (x y t : Q) : (x == y)%Q -> JS.Qgtb x t = JS.Qgtb y t.
Proof.
  intros H. unfold JS.Qgtb. now rewrite (Qcompare_comp _ _ H _ _ (Qeq_refl t)).
Qed.

Lemma commitSigns_mirror (threshold : Q) (ms : list Q) : forall b b' : Q,
  (b' == - b)%Q ->
  commitSigns threshold b' (map Qopp ms) = map Z.opp (commitSigns threshold b ms).
Proof.
  induction ms as [|m rest IH]; intros b b' Hb; [reflexivity|].
  cbn [map commitSigns].
  assert (Hd : (- m - b' == - (m - b))%Q) by (rewrite Hb; ring).
  assert (Ha : (Qabs (- m - b') == Qabs (m - b))%Q) by (rewrite Hd; apply Qabs_opp).
  rewrite (Qgtb_wd _ _ threshold Ha), (Qsign_wd _ _ Hd), Qsign_opp.
  destruct (JS.Qgtb (Qabs (m - b)) threshold).
  - cbn [map]. f_equal. apply IH. reflexivity.
  - apply IH. exact Hb.
Qed.

(** X19. Left and right are treated alike: a gesture and its mirror
    image, with every displacement negated, make the same number of
    setPosition calls and leave the suppression flag in the same state. *)
Theorem mirrored_gesture_commits (T : Type) (props : CoverflowProps T)
        (samples : list (bool * Q)) (h : Hooks) :
  length (commits (effectsOf props (gesture (mirrored samples)) h))
  = length (commits (effectsOf props (gesture samples) h))
  /\ preventClick (hooksAfter props (gesture (mirrored samples)) h)
     = preventClick (hooksAfter props (gesture samples) h).
Proof.
  assert (Hsigns : commitSigns (dragThreshold props) 0 (map snd (mirrored samples))
                   = map Z.opp (commitSigns (dragThreshold props) 0 (map snd samples))).
  { unfold mirrored. rewrite map_map. cbn [snd]. rewrite <- (map_map snd Qopp).
    apply commitSigns_mirror. reflexivity. }
  assert (Hlen : length (commits (effectsOf props (gesture (mirrored samples)) h))
                 = length (commits (effectsOf props (gesture samples) h))).
  { destruct (gesture_run T props samples h) as [Hc _].
    destruct (gesture_run T props (mirrored samples) h) as [Hc' _].
    rewrite Hc, Hc', !commitEffects_length, Hsigns. apply length_map. }
  split; [exact Hlen|].
  assert (Hd : forall l, forallb (@isDragSample T) (gesture l) = true).
  { intros [|[a mx] rest]; [reflexivity|]. cbn [gesture forallb isDragSample andb].
    unfold continued. induction rest as [|r rest IHr]; [reflexivity|exact IHr]. }
  destruct (drags_flag T props _ h (Hd samples)) as (Hn & Hy & _).
  destruct (drags_flag T props _ h (Hd (mirrored samples))) as (Hn' & Hy' & _).
  destruct (commits (effectsOf props (gesture samples) h)) as [|c cs] eqn:E;
    destruct (commits (effectsOf props (gesture (mirrored samples)) h)) as [|c' cs'] eqn:E';
    try discriminate.
  - destruct (Hn eq_refl) as [-> _]. destruct (Hn' eq_refl) as [-> _]. reflexivity.
  - rewrite Hy, Hy'; [reflexivity|discriminate|discriminate].
Qed.

(** ** Edge cases of the window *)

(** X20. A negative sideItems never shows the centre item, and the window
    is not always empty: once position + sideItems + 1 is negative, the
    end of the slice counts from the end of the list and the window holds
    the keys from position - sideItems up to N + position + sideItems. *)
Theorem negative_sideItems_window (T : Type) (props : CoverflowProps T) (p : Z) :
  sideItems props < 0 -> 0 <= p ->
  let N := Z.of_nat (length (items props)) in
  let keys := map (fun it : ItemWithIndex T => key it) (visibleItems props p) in
  (forall it : ItemWithIndex T, In it (visibleItems props p) -> 0 < index it)
  /\ (0 <= p + sideItems props + 1 -> visibleItems props p = [])
  /\ (p + sideItems props + 1 < 0 ->
      keys = zrange (p - sideItems props) (N + (p + sideItems props + 1))).
Proof.
  intros Hs Hp N keys.
  assert (Hkeys : keys
                  = zcount (Z.min (Z.max (p - sideItems props) 0) N)
                      (Z.to_nat ((if Z.min (p + sideItems props + 1) N <? 0
                                  then Z.max (N + Z.min (p + sideItems props + 1) N) 0
                                  else Z.min (Z.min (p + sideItems props + 1) N) N)
                                 - Z.min (Z.max (p - sideItems props) 0) N))).
  { unfold keys, visibleItems. rewrite withIndex_keys, withKeys_slice. cbv zeta.
    rewrite mapiFrom_keys, length_firstn, length_skipn. unfold start, finish. fold N.
    destruct (Z.ltb_spec (Z.max (p - sideItems props) 0) 0); [lia|].
    f_equal; [lia|].
    destruct (Z.ltb_spec (Z.min (p + sideItems props + 1) N) 0); lia. }
  split; [|split].
  - intros it Hin.
    destruct (visibleItems_sound _ _ _ _ Hin) as (_ & _ & Hidx).
    assert (Hk : In (key it) keys).
    { unfold keys. apply (in_map (fun it : ItemWithIndex T => key it)). exact Hin. }
    rewrite Hkeys, zcount_In in Hk.
    destruct (Z.ltb_spec (Z.min (p + sideItems props + 1) N) 0); lia.
  - intros Hend. apply length_zero_iff_nil.
    rewrite <- (length_map (fun it : ItemWithIndex T => key it)). fold keys.
    rewrite Hkeys, zcount_length.
    destruct (Z.ltb_spec (Z.min (p + sideItems props + 1) N) 0); lia.
  - intros Hend. rewrite Hkeys. unfold zrange.
    destruct (Z.ltb_spec (Z.min (p + sideItems props + 1) N) 0); [|lia].
    destruct (Z.le_gt_cases (p - sideItems props) N) as [Hle|Hgt].
    + f_equal; lia.
    + replace (Z.to_nat (N + (p + sideItems props + 1) - (p - sideItems props)))
        with 0%nat by lia.
      replace (Z.to_nat _) with 0%nat by lia. reflexivity.
Qed.

Lemma negative_sideItems_window_witness :
  let props := {| items := [10; 20; 30; 40; 50; 60; 70; 80; 90; 100]%nat;
                  sideItems := -3; startPosition := 0;
                  scale := 1; scaleRatio := 1; angle := 60; gap := 20; centreGap := 40;
                  perspective := 1000; depth := 200; itemClicked := true;
                  sideItemClicked := true; showReflections := true; dragThreshold := 100;
                  dragSpeed := 1 # 2; clickableSide := true |} in
  map (fun it : ItemWithIndex nat => (key it, item it, index it)) (visibleItems props 0)
  = [(3, 40%nat, 3); (4, 50%nat, 4); (5, 60%nat, 5); (6, 70%nat, 6); (7, 80%nat, 7)]
  /\ map (fun it : ItemWithIndex nat => key it) (visibleItems props 0) = zrange 3 8.
Proof.
  intros props.
  assert (Hs : sideItems props < 0) by (simpl; lia).
  assert (Hp : 0 <= 0) by lia.
  split; [reflexivity|].
  destruct (negative_sideItems_window nat props 0 Hs Hp) as (_ & _ & Hwrap).
  apply Hwrap. simpl. lia.
Defined.

(** X21. The first render: on a non-empty list with sideItems >= 0 the
    initial Position is startPosition when that is in bounds, 0 when it is
    negative and N-1 when it is past the end, and the item at that index
    is visible at offset 0. *)
Theorem initial_render (T : Type) (props : CoverflowProps T) :
  1 <= Z.of_nat (length (items props)) ->
  0 <= sideItems props ->
  let N := Z.of_nat (length (items props)) in
  let p0 := position (initialHooks props) in
  (inBounds props (startPosition props) -> p0 = startPosition props)
  /\ (startPosition props < 0 -> p0 = 0)
  /\ (N <= startPosition props -> p0 = N - 1)
  /\ preventClick (initialHooks props) = false
  /\ exists x : T,
       nth_error (items props) (Z.to_nat p0) = Some x
       /\ In (rendered x p0 p0) (visibleItems props p0).
Proof.
  intros HN Hs N p0.
  assert (Hp0 : inBounds props p0) by (apply clampPosition_bounds; exact HN).
  unfold inBounds in Hp0. fold N in Hp0.
  split; [intros Hin; now apply clampPosition_fixed|].
  split; [intros Hneg; unfold p0; cbn [initialHooks position]; unfold clampPosition; lia|].
  split; [intros Hpast; unfold p0; cbn [initialHooks position]; unfold clampPosition;
          fold N; lia|].
  split; [reflexivity|].
  destruct (nth_error (items props) (Z.to_nat p0)) as [x|] eqn:Hx.
  - exists x. split; [reflexivity|].
    apply visibleItems_complete; [exact Hs|lia|exact Hx|lia].
  - apply nth_error_None in Hx. unfold N in Hp0. lia.
Qed.

Lemma initial_render_witness :
  let props := {| items := [10; 20; 30]%nat; sideItems := 1; startPosition := 7;
                  scale := 1; scaleRatio := 1; angle := 60; gap := 20; centreGap := 40;
                  perspective := 1000; depth := 200; itemClicked := true;
                  sideItemClicked := true; showReflections := true; dragThreshold := 100;
                  dragSpeed := 1 # 2; clickableSide := true |} in
  position (initialHooks props) = 2
  /\ map (fun it : ItemWithIndex nat => (key it, item it, index it))
         (visibleItems props (position (initialHooks props)))
     = [(1, 20%nat, -1); (2, 30%nat, 0)].
Proof.
  intros props.
  assert (HN : 1 <= Z.of_nat (length (items props))) by (simpl; lia).
  assert (Hs : 0 <= sideItems props) by (simpl; lia).
  destruct (initial_render nat props HN Hs) as (_ & _ & Hpast & _).
  split; [apply Hpast; simpl; lia|reflexivity].
Defined.
